(** * sil-opt: the SIL optimization driver (tools/sil-opt/SILOpt.cpp)

    A shallow embedding of the driver: the command-line option variables,
    the pass dispatch switch of [runCommandLineSelectedPasses] and the
    control flow of [main].  Everything the driver calls but does not
    define (the compiler instance, the pass manager's [run], the preset
    pipelines, the output stream, the diagnostic verifier) is an operation
    of the [Collaborators] interface acting on an abstract [World]. *)

From Stdlib Require Import List String Ascii Bool ZArith Lia PeanoNat.
Import ListNotations.

Local Open Scope string_scope.
Local Open Scope Z_scope.

Set Implicit Arguments.

(* ===================================================================== *)
(** ** Enumerations (SILOpt.cpp 37-76) *)
(* ===================================================================== *)

Module Kinds.

(** [enum class PassKind], constructors in declaration order. *)
Inductive PassKind : Type :=
| AllocBoxToStack
| CapturePromotion
| DiagnosticCCP
| PerformanceCCP
| CSE
| DefiniteInit
| NoReturn
| DiagnoseUnreachable
| DataflowDiagnostics
| GlobalOpt
| InOutDeshadowing
| MandatoryInlining
| PredictableMemoryOpt
| SILCleanup
| SILMem2Reg
| SILCombine
| SILDeadFunctionElimination
| SILSpecialization
| SILDevirt
| SimplifyCFG
| PerformanceInlining
| CodeMotion
| LowerAggregateInstrs
| SROA
| ARCOpts
| StripDebugInfo
| DeadObjectElimination
| InstCount
| AADumper
| LoadStoreOpts
| SILLinker
| GlobalARCOpts
| DCE
| EnumSimplification.

(** The enumerators as a list, in declaration order. *)
Definition PassKind_values : list PassKind :=
  [ AllocBoxToStack; CapturePromotion; DiagnosticCCP; PerformanceCCP; CSE;
    DefiniteInit; NoReturn; DiagnoseUnreachable; DataflowDiagnostics;
    GlobalOpt; InOutDeshadowing; MandatoryInlining; PredictableMemoryOpt;
    SILCleanup; SILMem2Reg; SILCombine; SILDeadFunctionElimination;
    SILSpecialization; SILDevirt; SimplifyCFG; PerformanceInlining;
    CodeMotion; LowerAggregateInstrs; SROA; ARCOpts; StripDebugInfo;
    DeadObjectElimination; InstCount; AADumper; LoadStoreOpts; SILLinker;
    GlobalARCOpts; DCE; EnumSimplification ].

(** The underlying integer of an enumerator (its position). *)
Definition PassKind_ord (k : PassKind) : nat :=
  match k with
  | AllocBoxToStack => 0 | CapturePromotion => 1 | DiagnosticCCP => 2
  | PerformanceCCP => 3 | CSE => 4 | DefiniteInit => 5 | NoReturn => 6
  | DiagnoseUnreachable => 7 | DataflowDiagnostics => 8 | GlobalOpt => 9
  | InOutDeshadowing => 10 | MandatoryInlining => 11
  | PredictableMemoryOpt => 12 | SILCleanup => 13 | SILMem2Reg => 14
  | SILCombine => 15 | SILDeadFunctionElimination => 16
  | SILSpecialization => 17 | SILDevirt => 18 | SimplifyCFG => 19
  | PerformanceInlining => 20 | CodeMotion => 21
  | LowerAggregateInstrs => 22 | SROA => 23 | ARCOpts => 24
  | StripDebugInfo => 25 | DeadObjectElimination => 26 | InstCount => 27
  | AADumper => 28 | LoadStoreOpts => 29 | SILLinker => 30
  | GlobalARCOpts => 31 | DCE => 32 | EnumSimplification => 33
  end%nat.

(** Comparison of enumerators, as the switch does it: on the integers. *)
Definition PassKind_eqb (a b : PassKind) : bool :=
  Nat.eqb (PassKind_ord a) (PassKind_ord b).

(** [enum class OptGroup]. *)
Inductive OptGroup : Type := Unknown | Diagnostics | Performance.

(** The pass objects the driver can construct: one constructor per factory
    function of swift/SILPasses/Passes.h that the switch calls. *)
Inductive SILTransform : Type :=
| createAllocBoxToStack
| createCapturePromotion
| createDiagnosticConstantPropagation
| createPerformanceConstantPropagation
| createCSE
| createNoReturnFolding
| createDiagnoseUnreachable
| createDefiniteInitialization
| createEmitDFDiagnostics
| createInOutDeshadowing
| createGlobalOpt
| createMandatoryInlining
| createPredictableMemoryOptimizations
| createSILCleanup
| createMem2Reg
| createSILCombine
| createDeadFunctionElimination
| createGenericSpecializer
| createDevirtualization
| createSimplifyCFG
| createPerfInliner
| createCodeMotion
| createLowerAggregate
| createSROA
| createARCOpts
| createStripDebug
| createDeadObjectElimination
| createSILInstCount
| createSILAADumper
| createLoadStoreOpts
| createSILLinker
| createGlobalARCOpts
| createDCE
| createEnumSimplification.

(** The analyses registered by [runCommandLineSelectedPasses]. *)
Inductive SILAnalysis : Type :=
| createCallGraphAnalysis
| createAliasAnalysis
| createDominanceAnalysis.

(** [SourceFileKind], the two values the driver sets. *)
Inductive SourceFileKind : Type := Library | SIL.

End Kinds.
Export Kinds.

(* ===================================================================== *)
(** ** The dispatch switch (SILOpt.cpp 286-389) *)
(* ===================================================================== *)

Module Dispatch.

(** The case labels of the switch with the factory each case passes to
    [PM.add], in the order the cases are written.  Every case ends in
    [break], so no case falls through into the next. *)
Definition switch_cases : list (PassKind * SILTransform) :=
  [ (AllocBoxToStack, createAllocBoxToStack);
    (CapturePromotion, createCapturePromotion);
    (DiagnosticCCP, createDiagnosticConstantPropagation);
    (PerformanceCCP, createPerformanceConstantPropagation);
    (CSE, createCSE);
    (NoReturn, createNoReturnFolding);
    (DiagnoseUnreachable, createDiagnoseUnreachable);
    (DefiniteInit, createDefiniteInitialization);
    (DataflowDiagnostics, createEmitDFDiagnostics);
    (InOutDeshadowing, createInOutDeshadowing);
    (GlobalOpt, createGlobalOpt);
    (MandatoryInlining, createMandatoryInlining);
    (PredictableMemoryOpt, createPredictableMemoryOptimizations);
    (SILCleanup, createSILCleanup);
    (SILMem2Reg, createMem2Reg);
    (SILCombine, createSILCombine);
    (SILDeadFunctionElimination, createDeadFunctionElimination);
    (SILSpecialization, createGenericSpecializer);
    (SILDevirt, createDevirtualization);
    (SimplifyCFG, createSimplifyCFG);
    (PerformanceInlining, createPerfInliner);
    (CodeMotion, createCodeMotion);
    (LowerAggregateInstrs, createLowerAggregate);
    (SROA, createSROA);
    (ARCOpts, createARCOpts);
    (StripDebugInfo, createStripDebug);
    (DeadObjectElimination, createDeadObjectElimination);
    (InstCount, createSILInstCount);
    (AADumper, createSILAADumper);
    (LoadStoreOpts, createLoadStoreOpts);
    (SILLinker, createSILLinker);
    (GlobalARCOpts, createGlobalARCOpts);
    (DCE, createDCE);
    (EnumSimplification, createEnumSimplification) ].

(** The switch has no [default:] label. *)
Definition switch_default : option SILTransform := None.

(** Control transfer of [switch (Pass)]: to the case whose label equals the
    value; with no such label, to [default:] if there is one, and past the
    switch otherwise.  The result is the factory whose object is added, if
    any statement is reached at all. *)
Definition switch_Pass (Pass : PassKind) : option SILTransform :=
  match find (fun c => PassKind_eqb (fst c) Pass) switch_cases with
  | Some (_, create) => Some create
  | None => switch_default
  end.

(** The objects the switch creates for a sequence of values, in order. *)
Definition instantiate (Passes : list PassKind) : list SILTransform :=
  flat_map (fun Pass => match switch_Pass Pass with
                        | Some create => [create]
                        | None => []
                        end) Passes.

(** How many case labels carry a given enumerator. *)
Definition label_count (Pass : PassKind) : nat :=
  List.length (filter (fun c => PassKind_eqb (fst c) Pass) switch_cases).

(** The [clEnumValN] table of the [Passes] option (SILOpt.cpp 112-224): flag
    name and enumerator, in the order written. *)
Definition Passes_flags : list (string * PassKind) :=
  [ ("allocbox-to-stack", AllocBoxToStack);
    ("capture-promotion", CapturePromotion);
    ("mem2reg", SILMem2Reg);
    ("cleanup", SILCleanup);
    ("diagnostic-constant-propagation", DiagnosticCCP);
    ("performance-constant-propagation", PerformanceCCP);
    ("cse", CSE);
    ("dataflow-diagnostics", DataflowDiagnostics);
    ("noreturn-folding", NoReturn);
    ("diagnose-unreachable", DiagnoseUnreachable);
    ("definite-init", DefiniteInit);
    ("inout-deshadow", InOutDeshadowing);
    ("global-opt", GlobalOpt);
    ("mandatory-inlining", MandatoryInlining);
    ("specialize", SILSpecialization);
    ("devirtualize", SILDevirt);
    ("predictable-memopt", PredictableMemoryOpt);
    ("sil-combine", SILCombine);
    ("sil-deadfuncelim", SILDeadFunctionElimination);
    ("simplify-cfg", SimplifyCFG);
    ("inline", PerformanceInlining);
    ("codemotion", CodeMotion);
    ("lower-aggregate-instrs", LowerAggregateInstrs);
    ("sroa", SROA);
    ("arc-opts", ARCOpts);
    ("strip-debug-info", StripDebugInfo);
    ("deadobject-elim", DeadObjectElimination);
    ("inst-count", InstCount);
    ("aa-dump", AADumper);
    ("load-store-opts", LoadStoreOpts);
    ("linker", SILLinker);
    ("global-arc-opts", GlobalARCOpts);
    ("dce", DCE);
    ("enum-simplification", EnumSimplification) ].

(** The [clEnumValN] table of [OptimizationGroup] (SILOpt.cpp 103-110). *)
Definition OptimizationGroup_flags : list (string * OptGroup) :=
  [ ("diagnostics", Diagnostics); ("performance", Performance) ].

End Dispatch.
Export Dispatch.

(* ===================================================================== *)
(** ** Command-line option variables (SILOpt.cpp 80-276) *)
(* ===================================================================== *)

Module Options.

(** The file-scope [llvm::cl] option variables, one field per variable.
    [cl::opt<unsigned>] values are naturals below [2^32]. *)
Record CommandLine : Type := mkCommandLine {
  InputFilename : string;
  OutputFilename : string;
  ImportPaths : list string;
  ModuleName : string;
  SDKPath : string;
  Target : string;
  OptimizationGroup : OptGroup;
  Passes : list PassKind;
  PrintStats : bool;
  VerifyMode : bool;
  AssertConfId : N;
  SILInlineThreshold : N;
  SILDevirtThreshold : N;
  EnableSILVerifyAll : bool;
  RemoveRuntimeAsserts : bool;
  EnableSILPrintAll : bool;
  EmitVerboseSIL : bool;
  ModuleCachePath : string;
  EnableSILSortOutput : bool
}.

(** The values the variables hold before the command line is parsed: the
    [llvm::cl::init] of each declaration; the empty string, the empty list
    and [false] where the declaration gives none.  The macro
    [SWIFT_MODULE_CACHE_PATH] comes from the build and is a parameter. *)
Definition cl_init (SWIFT_MODULE_CACHE_PATH : string) : CommandLine :=
  {| InputFilename := "-";
     OutputFilename := "-";
     ImportPaths := [];
     ModuleName := EmptyString;
     SDKPath := EmptyString;
     Target := EmptyString;
     OptimizationGroup := Unknown;
     Passes := [];
     PrintStats := false;
     VerifyMode := false;
     AssertConfId := 0%N;
     SILInlineThreshold := 50%N;
     SILDevirtThreshold := 0%N;
     EnableSILVerifyAll := true;
     RemoveRuntimeAsserts := false;
     EnableSILPrintAll := false;
     EmitVerboseSIL := false;
     ModuleCachePath := SWIFT_MODULE_CACHE_PATH;
     EnableSILSortOutput := false |}.

(** One occurrence of an option on the command line.  The two unnamed enum
    options ([OptimizationGroup] and [Passes]) are spelled by the flag names
    of their [clEnumValN] tables, so they share one constructor. *)
Inductive Arg : Type :=
| Positional (file : string)
| Opt_o (file : string)
| Opt_I (dir : string)
| Opt_module_name (name : string)
| Opt_sdk (path : string)
| Opt_target (triple : string)
| Opt_enum (flag : string)
| Opt_print_stats (b : bool)
| Opt_verify (b : bool)
| Opt_assert_conf_id (n : N)
| Opt_sil_inline_threshold (n : N)
| Opt_sil_devirt_threshold (n : N)
| Opt_enable_sil_verify_all (b : bool)
| Opt_remove_runtime_asserts (b : bool)
| Opt_sil_print_all (b : bool)
| Opt_emit_verbose_sil (b : bool)
| Opt_module_cache_path (path : string)
| Opt_sil_sort_output (b : bool).

(** Lookup of a flag name in a [clEnumValN] table. *)
Definition lookup_flag {A : Type} (flag : string) (table : list (string * A))
  : option A :=
  match find (fun e => String.eqb (fst e) flag) table with
  | Some (_, v) => Some v
  | None => None
  end.

(** The effect of one occurrence on the variables.  A scalar option stores
    the value; a list option appends it, so [Passes] and [ImportPaths] keep
    command-line order.  A flag in neither enum table is not an option of
    the tool: [None]. *)
Definition apply_arg (cl : CommandLine) (a : Arg) : option CommandLine :=
  let '(mkCommandLine inp out imps name sdk tgt grp ps stats vfy
                      conf ithr dthr vall rra pall verb cache sort) := cl in
  match a with
  | Positional f =>
      Some (mkCommandLine f out imps name sdk tgt grp ps stats vfy
                          conf ithr dthr vall rra pall verb cache sort)
  | Opt_o f =>
      Some (mkCommandLine inp f imps name sdk tgt grp ps stats vfy
                          conf ithr dthr vall rra pall verb cache sort)
  | Opt_I d =>
      Some (mkCommandLine inp out (imps ++ [d]) name sdk tgt grp ps stats vfy
                          conf ithr dthr vall rra pall verb cache sort)
  | Opt_module_name n =>
      Some (mkCommandLine inp out imps n sdk tgt grp ps stats vfy
                          conf ithr dthr vall rra pall verb cache sort)
  | Opt_sdk p =>
      Some (mkCommandLine inp out imps name p tgt grp ps stats vfy
                          conf ithr dthr vall rra pall verb cache sort)
  | Opt_target t =>
      Some (mkCommandLine inp out imps name sdk t grp ps stats vfy
                          conf ithr dthr vall rra pall verb cache sort)
  | Opt_enum flag =>
      match lookup_flag flag OptimizationGroup_flags with
      | Some g =>
          Some (mkCommandLine inp out imps name sdk tgt g ps stats vfy
                              conf ithr dthr vall rra pall verb cache sort)
      | None =>
          match lookup_flag flag Passes_flags with
          | Some p =>
              Some (mkCommandLine inp out imps name sdk tgt grp (ps ++ [p])
                                  stats vfy
                                  conf ithr dthr vall rra pall verb cache sort)
          | None => None
          end
      end
  | Opt_print_stats b =>
      Some (mkCommandLine inp out imps name sdk tgt grp ps b vfy
                          conf ithr dthr vall rra pall verb cache sort)
  | Opt_verify b =>
      Some (mkCommandLine inp out imps name sdk tgt grp ps stats b
                          conf ithr dthr vall rra pall verb cache sort)
  | Opt_assert_conf_id n =>
      Some (mkCommandLine inp out imps name sdk tgt grp ps stats vfy
                          n ithr dthr vall rra pall verb cache sort)
  | Opt_sil_inline_threshold n =>
      Some (mkCommandLine inp out imps name sdk tgt grp ps stats vfy
                          conf n dthr vall rra pall verb cache sort)
  | Opt_sil_devirt_threshold n =>
      Some (mkCommandLine inp out imps name sdk tgt grp ps stats vfy
                          conf ithr n vall rra pall verb cache sort)
  | Opt_enable_sil_verify_all b =>
      Some (mkCommandLine inp out imps name sdk tgt grp ps stats vfy
                          conf ithr dthr b rra pall verb cache sort)
  | Opt_remove_runtime_asserts b =>
      Some (mkCommandLine inp out imps name sdk tgt grp ps stats vfy
                          conf ithr dthr vall b pall verb cache sort)
  | Opt_sil_print_all b =>
      Some (mkCommandLine inp out imps name sdk tgt grp ps stats vfy
                          conf ithr dthr vall rra b verb cache sort)
  | Opt_emit_verbose_sil b =>
      Some (mkCommandLine inp out imps name sdk tgt grp ps stats vfy
                          conf ithr dthr vall rra pall b cache sort)
  | Opt_module_cache_path p =>
      Some (mkCommandLine inp out imps name sdk tgt grp ps stats vfy
                          conf ithr dthr vall rra pall verb p sort)
  | Opt_sil_sort_output b =>
      Some (mkCommandLine inp out imps name sdk tgt grp ps stats vfy
                          conf ithr dthr vall rra pall verb cache b)
  end.

(** [llvm::cl::ParseCommandLineOptions] on the arguments after [argv[0]],
    left to right from the given variables.  The library itself is not part
    of the repository; this is its storing behaviour only, and it accepts a
    repeated scalar option (the last occurrence wins) where the library may
    reject the command line. *)
Fixpoint ParseCommandLineOptions (args : list Arg) (cl : CommandLine)
  : option CommandLine :=
  match args with
  | [] => Some cl
  | a :: rest =>
      match apply_arg cl a with
      | Some cl' => ParseCommandLineOptions rest cl'
      | None => None
      end
  end.

(** The variables with another explicit pass list, all else equal. *)
Definition with_Passes (Passes' : list PassKind) (cl : CommandLine)
  : CommandLine :=
  let '(mkCommandLine inp out imps name sdk tgt grp _ stats vfy
                      conf ithr dthr vall rra pall verb cache sort) := cl in
  mkCommandLine inp out imps name sdk tgt grp Passes' stats vfy
                conf ithr dthr vall rra pall verb cache sort.

(** Whether an occurrence names [-enable-sil-verify-all]. *)
Definition sets_verify_all (a : Arg) : bool :=
  match a with
  | Opt_enable_sil_verify_all _ => true
  | _ => false
  end.

(** Modelled from the spec: [SILOptions] (swift/AST/SILOptions.h is not
    among the sources), the pipeline configuration with the six recognised
    options, the two thresholds and the assert configuration being [int]. *)
Record SILOptions : Type := mkSILOptions {
  InlineThreshold : Z;
  DevirtThreshold : Z;
  VerifyAll : bool;
  PrintAll : bool;
  Opt_RemoveRuntimeAsserts : bool;
  AssertConfig : Z
}.

(** Conversion of a 32-bit [unsigned] to [int]: the value modulo [2^32],
    read as two's complement. *)
Definition int_of_unsigned (u : N) : Z :=
  let v := Z.of_N u mod 2 ^ 32 in
  if v <? 2 ^ 31 then v else v - 2 ^ 32.

(** SILOpt.cpp 483-489: the six assignments to [SILOpts]. *)
Definition SILOpts_of (cl : CommandLine) : SILOptions :=
  {| InlineThreshold := int_of_unsigned cl.(SILInlineThreshold);
     DevirtThreshold := int_of_unsigned cl.(SILDevirtThreshold);
     VerifyAll := cl.(EnableSILVerifyAll);
     PrintAll := cl.(EnableSILPrintAll);
     Opt_RemoveRuntimeAsserts := cl.(RemoveRuntimeAsserts);
     AssertConfig := int_of_unsigned cl.(AssertConfId) |}.

End Options.
Export Options.

(* ===================================================================== *)
(** ** What the driver calls: the world and its collaborators *)
(* ===================================================================== *)

Module Env.

(** The contents of an [llvm::MemoryBuffer]. *)
Definition MemoryBuffer : Type := string.

(** What the driver stores in its [CompilerInvocation] before [CI.setup].
    The SDK path and the target triple are set only when the option is not
    empty: [None] is "setter not called". *)
Record CompilerInvocation : Type := mkInvocation {
  MainExecutablePath : string;
  ImportSearchPaths : list string;
  Inv_SDKPath : option string;
  Inv_TargetTriple : option string;
  Inv_ModuleCachePath : string;
  InputBuffers : list MemoryBuffer;
  Inv_ModuleName : string;
  InputKind : SourceFileKind
}.

(** Modelled from the spec: [SILPassManager] (swift/SILPasses/PassManager.h
    is not among the sources).  It holds the options it was built with, the
    registered analyses and the ordered sequence of pass instances;
    [registerAnalysis] and [add] append at the end; the module reference is
    the module of the world. *)
Record SILPassManager : Type := mkPM {
  PM_Options : SILOptions;
  PM_Analyses : list SILAnalysis;
  PM_Transformations : list SILTransform
}.

Definition PM_new (Options : SILOptions) : SILPassManager :=
  {| PM_Options := Options; PM_Analyses := []; PM_Transformations := [] |}.

Definition PM_registerAnalysis (A : SILAnalysis) (PM : SILPassManager)
  : SILPassManager :=
  {| PM_Options := PM.(PM_Options);
     PM_Analyses := PM.(PM_Analyses) ++ [A];
     PM_Transformations := PM.(PM_Transformations) |}.

Definition PM_add (T : SILTransform) (PM : SILPassManager) : SILPassManager :=
  {| PM_Options := PM.(PM_Options);
     PM_Analyses := PM.(PM_Analyses);
     PM_Transformations := PM.(PM_Transformations) ++ [T] |}.

(** Values fixed when the tool is built. *)
Record Build : Type := mkBuild {
  SWIFT_MODULE_CACHE_PATH : string;
  NDEBUG : bool
}.

(** The operations the driver calls and does not define.  [World] is
    everything they act on: the file system, the compiler instance with its
    AST context, diagnostic engine and SIL module, and the output streams.
    An operation that returns a value and has an effect returns both. *)
Class Collaborators (World : Type) : Type := {
  (** [llvm::sys::fs::getMainExecutable(argv[0], ...)] *)
  getMainExecutable : string -> World -> string;
  (** [llvm::MemoryBuffer::getFileOrSTDIN]: [None] when it returns an error *)
  getFileOrSTDIN : string -> World -> option MemoryBuffer;
  (** [SerializedModuleLoader::isSerializedAST] *)
  isSerializedAST : MemoryBuffer -> bool;
  (** [llvm::sys::path::stem] *)
  path_stem : string -> string;
  (** [CI.addDiagnosticConsumer(&PrintDiags)] *)
  CI_addDiagnosticConsumer : World -> World;
  (** [CI.setup(Invocation)]: [true] on failure *)
  CI_setup : CompilerInvocation -> World -> bool * World;
  (** [CI.performSema()] *)
  CI_performSema : World -> World;
  (** [CI.getASTContext().hadError()] *)
  ASTContext_hadError : World -> bool;
  (** [CI.hasSILModule()] *)
  CI_hasSILModule : World -> bool;
  (** [CI.setSILModule(createEmptyModule(..))] then [SL->getAll()] *)
  SerializedSILLoader_getAll : World -> World;
  (** [enableDiagnosticVerifier(CI.getSourceMgr())] *)
  enableDiagnosticVerifier : World -> World;
  (** [runSILDiagnosticPasses] on the SIL module and [SILOpts] *)
  runSILDiagnosticPasses : SILOptions -> World -> World;
  (** [runSILOptimizationPasses] on the SIL module and [SILOpts] *)
  runSILOptimizationPasses : SILOptions -> World -> World;
  (** [PM.run()] *)
  SILPassManager_run : SILPassManager -> World -> World;
  (** [llvm::raw_fd_ostream OS(name, ErrorInfo, F_None)]: the [ErrorInfo] *)
  raw_fd_ostream : string -> World -> string * World;
  (** [CI.getSILModule()->print(OS, Verbose, M, ShouldSort)] *)
  SILModule_print : bool -> bool -> World -> World;
  (** [verifyDiagnostics(CI.getSourceMgr(), CI.getInputBufferIDs())] *)
  verifyDiagnostics : World -> bool * World
}.

(** The calls the driver makes, recorded in the order it makes them. *)
Inductive Event : Type :=
| EvEnableStatistics
| EvGetFileOrSTDIN (name : string)
| EvStderr (text : string)
| EvAddDiagnosticConsumer
| EvSetup (Invocation : CompilerInvocation)
| EvPerformSema
| EvLoadSerializedSIL
| EvEnableDiagnosticVerifier
| EvRunSILDiagnosticPasses (Options : SILOptions)
| EvRunSILOptimizationPasses (Options : SILOptions)
| EvRegisterAnalysis (A : SILAnalysis)
| EvAdd (T : SILTransform)
| EvRun (PM : SILPassManager)
| EvOpenOutput (name : string)
| EvPrint (Verbose ShouldSort : bool)
| EvVerifyDiagnostics.

(** How the process ends. *)
Inductive Termination : Type :=
| main_returns (code : Z)
| exit_called (code : Z)
| assertion_failed (text : string).

(** The events in which passes are selected or run. *)
Definition is_pass_event (e : Event) : bool :=
  match e with
  | EvRunSILDiagnosticPasses _ | EvRunSILOptimizationPasses _
  | EvAdd _ | EvRun _ => true
  | _ => false
  end.

(** The events of the explicit-list pipeline: the calls on the local pass
    manager. *)
Definition is_explicit_event (e : Event) : bool :=
  match e with
  | EvRegisterAnalysis _ | EvAdd _ | EvRun _ => true
  | _ => false
  end.

(** The events in which the module is handed to the printer. *)
Definition is_print (e : Event) : bool :=
  match e with
  | EvPrint _ _ => true
  | _ => false
  end.

(** The events of the diagnostic verifier. *)
Definition is_verdict (e : Event) : bool :=
  match e with
  | EvVerifyDiagnostics => true
  | _ => false
  end.

(** The options a pipeline is started with, for the events that start
    one. *)
Definition event_options (e : Event) : option SILOptions :=
  match e with
  | EvRunSILDiagnosticPasses o | EvRunSILOptimizationPasses o => Some o
  | EvRun PM => Some PM.(PM_Options)
  | _ => None
  end.

End Env.
Export Env.

(* ===================================================================== *)
(** ** The driver monad: world, call log, early termination *)
(* ===================================================================== *)

Module DriverMonad.

Section Monad.

Context {World : Type}.

Record St : Type := mkSt { world : World; log : list Event }.

Inductive Flow (A : Type) : Type :=
| Next (a : A)
| Stop (t : Termination).

Definition M (A : Type) : Type := St -> Flow A * St.

Definition ret {A : Type} (a : A) : M A := fun st => (Next a, st).

Definition bind {A B : Type} (m : M A) (k : A -> M B) : M B :=
  fun st =>
    match m st with
    | (Next a, st') => k a st'
    | (Stop _ t, st') => (Stop B t, st')
    end.

(** [return code;] from [main], [exit(code)], a failed [assert]. *)
Definition stop {A : Type} (t : Termination) : M A := fun st => (Stop A t, st).

Definition record (e : Event) (st : St) (w : World) : St :=
  {| world := w; log := st.(log) ++ [e] |}.

(** A call with an effect and no result. *)
Definition call (e : Event) (f : World -> World) : M unit :=
  fun st => (Next tt, record e st (f st.(world))).

(** A call with an effect and a result. *)
Definition callv {A : Type} (e : Event) (f : World -> A * World) : M A :=
  fun st => let (a, w) := f st.(world) in (Next a, record e st w).

(** A call that only reads. *)
Definition query {A : Type} (f : World -> A) : M A :=
  fun st => (Next (f st.(world)), st).

(** An effect recorded in the log only. *)
Definition emit (e : Event) : M unit :=
  fun st => (Next tt, record e st st.(world)).

(** [if (c) stmt;] *)
Definition when (c : bool) (m : M unit) : M unit :=
  if c then m else ret tt.

(** [for (auto x : xs) body] over a local object threaded through. *)
Fixpoint for_each {A S : Type} (xs : list A) (body : A -> S -> M S) (s : S)
  : M S :=
  match xs with
  | [] => ret s
  | x :: rest => bind (body x s) (for_each rest body)
  end.

(** [logs P m]: whatever [m] does, it leaves the log it found in place
    and appends only events that satisfy [P]. *)
Definition logs {A : Type} (P : Event -> Prop) (m : M A) : Prop :=
  forall st : St,
    exists l : list Event,
      (snd (m st)).(log) = (st.(log) ++ l)%list /\ Forall P l.

End Monad.

Arguments St World : clear implicits.
Arguments M World A : clear implicits.
Arguments Next {A} a.
Arguments Stop {A} t.

Declare Scope driver_scope.
Delimit Scope driver_scope with driver.

Notation "x <- m ;; k" := (bind m (fun x => k))
  (at level 61, m at next level, right associativity) : driver_scope.
Notation "m ;;; k" := (bind m (fun _ => k))
  (at level 61, right associativity) : driver_scope.

End DriverMonad.
Export DriverMonad.

(* ===================================================================== *)
(** ** The driver (SILOpt.cpp 278-519) *)
(* ===================================================================== *)

Module SILOpt.

Section Driver.

Context {World : Type} {C : Collaborators World}.
Variable B : Build.

Local Open Scope driver_scope.

Definition OptGroup_eqb (a b : OptGroup) : bool :=
  match a, b with
  | Unknown, Unknown | Diagnostics, Diagnostics
  | Performance, Performance => true
  | _, _ => false
  end.

(** The methods of the local [PM] object, with the call recorded. *)
Definition registerAnalysis (A : SILAnalysis) (PM : SILPassManager)
  : M World SILPassManager :=
  emit (EvRegisterAnalysis A) ;;; ret (PM_registerAnalysis A PM).

Definition add (T : SILTransform) (PM : SILPassManager)
  : M World SILPassManager :=
  emit (EvAdd T) ;;; ret (PM_add T PM).

(** SILOpt.cpp 286-389: the body of the loop, one [switch]. *)
Definition loop_body (Pass : PassKind) (PM : SILPassManager)
  : M World SILPassManager :=
  match switch_Pass Pass with
  | Some create => add create PM
  | None => ret PM
  end.

(** SILOpt.cpp 278-392. *)
Definition runCommandLineSelectedPasses (Passes : list PassKind)
    (Options : SILOptions) : M World unit :=
  let PM := PM_new Options in
  PM <- registerAnalysis createCallGraphAnalysis PM ;;
  PM <- registerAnalysis createAliasAnalysis PM ;;
  PM <- registerAnalysis createDominanceAnalysis PM ;;
  PM <- for_each Passes loop_body PM ;;
  call (EvRun PM) (SILPassManager_run PM).

(** SILOpt.cpp 414-429 and 438-453: what the driver stores in the
    invocation, given the executable path and the input buffer, and
    [IsModule]. *)
Definition invocation_for (exe : string) (cl : CommandLine)
    (buffer : MemoryBuffer) : CompilerInvocation * bool :=
  let sdk := if String.eqb cl.(SDKPath) EmptyString then None
             else Some cl.(SDKPath) in
  let triple := if String.eqb cl.(Target) EmptyString then None
                else Some cl.(Target) in
  let IsModule := isSerializedAST buffer in
  let Name :=
    if IsModule
    then if Nat.eqb (String.length cl.(ModuleName)) 0
         then path_stem cl.(InputFilename) else cl.(ModuleName)
    else if Nat.eqb (String.length cl.(ModuleName)) 0
         then "main" else cl.(ModuleName) in
  ({| MainExecutablePath := exe;
      ImportSearchPaths := cl.(ImportPaths);
      Inv_SDKPath := sdk;
      Inv_TargetTriple := triple;
      Inv_ModuleCachePath := cl.(ModuleCachePath);
      InputBuffers := [buffer];
      Inv_ModuleName := Name;
      InputKind := if IsModule then Library else SIL |},
   IsModule).

(** SILOpt.cpp 414-453: the invocation and the input file.  An input that
    cannot be read ends the process with [exit(-1)]. *)
Definition prepare_invocation (argv0 : string) (cl : CommandLine)
  : M World (CompilerInvocation * bool) :=
  exe <- query (getMainExecutable argv0) ;;
  emit (EvGetFileOrSTDIN cl.(InputFilename)) ;;;
  InputFile <- query (getFileOrSTDIN cl.(InputFilename)) ;;
  match InputFile with
  | None =>
      emit (EvStderr ("Error! Failed to open file: " ++ cl.(InputFilename)
                      ++ String "010" EmptyString)) ;;;
      stop (exit_called (-1))
  | Some buffer => ret (invocation_for exe cl buffer)
  end.

(** SILOpt.cpp 455-461: set up the compiler instance and run semantic
    analysis. *)
Definition run_sema (Invocation : CompilerInvocation) : M World unit :=
  call EvAddDiagnosticConsumer CI_addDiagnosticConsumer ;;;
  failed <- callv (EvSetup Invocation) (CI_setup Invocation) ;;
  if failed : bool then stop (main_returns 1)
  else call EvPerformSema CI_performSema.

(** SILOpt.cpp 463-465: if parsing produced an error, don't run any
    passes. *)
Definition stop_on_parse_error : M World unit :=
  HadError <- query ASTContext_hadError ;;
  if HadError : bool then stop (main_returns 1) else ret tt.

(** SILOpt.cpp 467-476: load the serialized SIL of a module.  The [assert]
    is compiled out under [NDEBUG]. *)
Definition load_sil (IsModule : bool) : M World unit :=
  when IsModule
    (has <- query CI_hasSILModule ;;
     if negb B.(NDEBUG) && has
     then stop (assertion_failed
                  "performSema() should not create a SILModule.")
     else call EvLoadSerializedSIL SerializedSILLoader_getAll).

(** SILOpt.cpp 478-481. *)
Definition install_verifier (cl : CommandLine) : M World unit :=
  when cl.(VerifyMode)
    (call EvEnableDiagnosticVerifier enableDiagnosticVerifier).

(** SILOpt.cpp 483-497: the options and the choice of pipeline. *)
Definition run_pipeline (cl : CommandLine) : M World unit :=
  let SILOpts := SILOpts_of cl in
  if OptGroup_eqb cl.(OptimizationGroup) Diagnostics then
    call (EvRunSILDiagnosticPasses SILOpts) (runSILDiagnosticPasses SILOpts)
  else if OptGroup_eqb cl.(OptimizationGroup) Performance then
    call (EvRunSILOptimizationPasses SILOpts)
         (runSILOptimizationPasses SILOpts)
  else
    runCommandLineSelectedPasses cl.(Passes) SILOpts.

(** SILOpt.cpp 499-506: open the output. *)
Definition open_output (cl : CommandLine) : M World unit :=
  ErrorInfo <- callv (EvOpenOutput cl.(OutputFilename))
                     (raw_fd_ostream cl.(OutputFilename)) ;;
  if negb (String.eqb ErrorInfo EmptyString) then
    emit (EvStderr ("while opening '" ++ cl.(OutputFilename) ++ "': "
                    ++ ErrorInfo ++ String "010" EmptyString)) ;;;
    stop (main_returns 1)
  else ret tt.

(** SILOpt.cpp 507-508: print the module. *)
Definition print_module (cl : CommandLine) : M World unit :=
  call (EvPrint cl.(EmitVerboseSIL) cl.(EnableSILSortOutput))
       (SILModule_print cl.(EmitVerboseSIL) cl.(EnableSILSortOutput)).

(** SILOpt.cpp 510-518: the value [main] returns. *)
Definition exit_status (cl : CommandLine) : M World Empty_set :=
  HadError <- query ASTContext_hadError ;;
  HadError <- (if cl.(VerifyMode)
               then callv EvVerifyDiagnostics verifyDiagnostics
               else ret HadError) ;;
  stop (main_returns (Z.b2z HadError)).

(** SILOpt.cpp 411-461: [main] from the parsed options up to the end of
    semantic analysis.  Yields [IsModule]. *)
Definition frontend (argv0 : string) (cl : CommandLine) : M World bool :=
  when cl.(PrintStats) (emit EvEnableStatistics) ;;;
  inv <- prepare_invocation argv0 cl ;;
  run_sema (fst inv) ;;;
  ret (snd inv).

(** SILOpt.cpp 411-476: up to the loaded SIL module. *)
Definition load_module (argv0 : string) (cl : CommandLine) : M World unit :=
  IsModule <- frontend argv0 cl ;;
  stop_on_parse_error ;;;
  load_sil IsModule.

(** SILOpt.cpp 411-481: everything before the pipeline. *)
Definition before_pipeline (argv0 : string) (cl : CommandLine)
  : M World unit :=
  load_module argv0 cl ;;;
  install_verifier cl.

(** SILOpt.cpp 411-506: everything before the module is printed. *)
Definition upto_output (argv0 : string) (cl : CommandLine) : M World unit :=
  before_pipeline argv0 cl ;;;
  run_pipeline cl ;;;
  open_output cl.

(** SILOpt.cpp 411-508: everything before the exit status is computed. *)
Definition upto_print (argv0 : string) (cl : CommandLine) : M World unit :=
  upto_output argv0 cl ;;;
  print_module cl.

(** [main] from the parsed options on. *)
Definition main_with (argv0 : string) (cl : CommandLine)
  : M World Empty_set :=
  upto_print argv0 cl ;;;
  exit_status cl.

(** SILOpt.cpp 401-519.  An argument that is no option of the tool makes
    the option parser end the process with status 1.  The stack-trace
    handlers and the [llvm_shutdown_obj] of lines 402-409 act only when
    the process dies on a signal or ends, and are left out. *)
Definition main (argv0 : string) (args : list Arg) : M World Empty_set :=
  match ParseCommandLineOptions args (cl_init B.(SWIFT_MODULE_CACHE_PATH)) with
  | None => stop (exit_called 1)
  | Some cl => main_with argv0 cl
  end.

(** Running a program of the driver from a world, with an empty log. *)
Definition start (w : World) : St World := {| world := w; log := [] |}.

Definition run (m : M World Empty_set) (w : World)
  : Termination * St World :=
  match m (start w) with
  | (Stop t, st) => (t, st)
  | (Next e, _) => match e with end
  end.

End Driver.

End SILOpt.
Export SILOpt.

(* ===================================================================== *)
(** ** The diagnostic verifier *)
(* ===================================================================== *)

Module Verifier.

Inductive Severity : Type := error | warning | note.

Definition Severity_eqb (a b : Severity) : bool :=
  match a, b with
  | error, error | warning, warning | note, note => true
  | _, _ => false
  end.

Record SourceLoc : Type := mkLoc { loc_line : nat; loc_column : nat }.

Definition SourceLoc_eqb (a b : SourceLoc) : bool :=
  Nat.eqb a.(loc_line) b.(loc_line) && Nat.eqb a.(loc_column) b.(loc_column).

(** Modelled from the spec: [DiagnosticRecord], a diagnostic as emitted
    (the diagnostic engine is not among the sources). *)
Record DiagnosticRecord : Type := mkDiag {
  severity : Severity;
  sourceLocation : SourceLoc;
  message : string
}.

(** Modelled from the spec: [ExpectedDiagnostic], an annotation mined from
    the input text (swift/Frontend/DiagnosticVerifier.h is not among the
    sources). *)
Record ExpectedDiagnostic : Type := mkExpected {
  exp_sourceLocation : SourceLoc;
  exp_severity : Severity;
  messageSubstringOrPattern : string
}.

(** [contains pat s]: [pat] occurs in [s] as a substring. *)
Fixpoint contains (pat s : string) : bool :=
  String.prefix pat s ||
  match s with
  | EmptyString => false
  | String _ rest => contains pat rest
  end.

(** Modelled from the spec: an actual diagnostic matches an expected entry
    when it has the same severity, the same location, and a message that
    satisfies the pattern. *)
Definition matches (e : ExpectedDiagnostic) (a : DiagnosticRecord) : bool :=
  Severity_eqb e.(exp_severity) a.(severity)
  && SourceLoc_eqb e.(exp_sourceLocation) a.(sourceLocation)
  && contains e.(messageSubstringOrPattern) a.(message).

(** Modelled from the spec: "matched by exactly one actual diagnostic": the
    sequence splits around one matching diagnostic, and none of the others
    matches. *)
Definition matched_by_exactly_one (e : ExpectedDiagnostic)
    (actual : list DiagnosticRecord) : Prop :=
  exists (l1 : list DiagnosticRecord) (a : DiagnosticRecord)
         (l2 : list DiagnosticRecord),
    actual = (l1 ++ a :: l2)%list
    /\ matches e a = true
    /\ Forall (fun x => matches e x = false) (l1 ++ l2)%list.

(** Modelled from the spec: an expected entry is matched when exactly one
    actual diagnostic matches it; the others are the unmatched expected
    entries. *)
Definition unmatched_expected (actual : list DiagnosticRecord)
    (expected : list ExpectedDiagnostic) : list ExpectedDiagnostic :=
  filter (fun e => negb (Nat.eqb (List.length (filter (matches e) actual)) 1))
         expected.

(** Modelled from the spec: an actual diagnostic is unmatched when it
    matches no expected entry. *)
Definition unmatched_actual (actual : list DiagnosticRecord)
    (expected : list ExpectedDiagnostic) : list DiagnosticRecord :=
  filter (fun a => negb (existsb (fun e => matches e a) expected)) actual.

(** Modelled from the spec: the two kinds of verification failure, kept
    apart. *)
Inductive Failure : Type :=
| UnmatchedExpected (e : ExpectedDiagnostic)
| UnmatchedActual (a : DiagnosticRecord).

(** Modelled from the spec: the failures reported, one per unmatched
    entry. *)
Definition failures (actual : list DiagnosticRecord)
    (expected : list ExpectedDiagnostic) : list Failure :=
  map UnmatchedExpected (unmatched_expected actual expected)
  ++ map UnmatchedActual (unmatched_actual actual expected).

Definition is_nil {A : Type} (l : list A) : bool :=
  match l with [] => true | _ :: _ => false end.

(** Modelled from the spec: [verify(actual, expected)], the verdict "no
    unmatched expected AND no unmatched actual" ([true] is success). *)
Definition verify (actual : list DiagnosticRecord)
    (expected : list ExpectedDiagnostic) : bool :=
  is_nil (unmatched_expected actual expected)
  && is_nil (unmatched_actual actual expected).

Definition is_error (d : DiagnosticRecord) : bool :=
  Severity_eqb d.(severity) error.

End Verifier.
Export Verifier.

(* ===================================================================== *)
(** ** A concrete world to run the driver in *)
(* ===================================================================== *)

Module Fixture.

(** What a run meets: the input, the outcome of each collaborator. *)
Record Scenario : Type := mkScenario {
  sc_input : option MemoryBuffer;
  sc_serialized : bool;
  sc_setup_fails : bool;
  sc_sema : list DiagnosticRecord;
  sc_pass : SILTransform -> list DiagnosticRecord;
  sc_diagnostic_passes : list SILTransform;
  sc_optimization_passes : list SILTransform;
  sc_output_error : string;
  sc_expected : list ExpectedDiagnostic
}.

(** The observable state: diagnostics emitted, passes executed, whether
    the verifier is attached and awaits its verdict, modules printed. *)
Record TestWorld : Type := mkWorld {
  emitted : list DiagnosticRecord;
  executed : list SILTransform;
  verifier_attached : bool;
  printed : nat
}.

Definition empty_world : TestWorld :=
  {| emitted := []; executed := []; verifier_attached := false;
     printed := 0 |}.

Definition emit_diags (ds : list DiagnosticRecord) (w : TestWorld)
  : TestWorld :=
  {| emitted := w.(emitted) ++ ds; executed := w.(executed);
     verifier_attached := w.(verifier_attached); printed := w.(printed) |}.

Definition execute (sc : Scenario) (ts : list SILTransform) (w : TestWorld)
  : TestWorld :=
  {| emitted := w.(emitted) ++ flat_map sc.(sc_pass) ts;
     executed := w.(executed) ++ ts;
     verifier_attached := w.(verifier_attached); printed := w.(printed) |}.

Definition set_verifier (b : bool) (w : TestWorld) : TestWorld :=
  {| emitted := w.(emitted); executed := w.(executed);
     verifier_attached := b; printed := w.(printed) |}.

Definition print_once (w : TestWorld) : TestWorld :=
  {| emitted := w.(emitted); executed := w.(executed);
     verifier_attached := w.(verifier_attached);
     printed := S w.(printed) |}.

(** The collaborators of a scenario.  The verifier is the one of
    [Verifier]; [verifyDiagnostics] returns [true] when it fails. *)
Definition collaborators (sc : Scenario) : Collaborators TestWorld :=
  {| getMainExecutable := fun argv0 _ => argv0;
     getFileOrSTDIN := fun _ _ => sc.(sc_input);
     isSerializedAST := fun _ => sc.(sc_serialized);
     path_stem := fun name => name;
     CI_addDiagnosticConsumer := fun w => w;
     CI_setup := fun _ w => (sc.(sc_setup_fails), w);
     CI_performSema := emit_diags sc.(sc_sema);
     ASTContext_hadError := fun w => existsb is_error w.(emitted);
     CI_hasSILModule := fun _ => false;
     SerializedSILLoader_getAll := fun w => w;
     enableDiagnosticVerifier := set_verifier true;
     runSILDiagnosticPasses := fun _ => execute sc sc.(sc_diagnostic_passes);
     runSILOptimizationPasses :=
       fun _ => execute sc sc.(sc_optimization_passes);
     SILPassManager_run := fun PM => execute sc PM.(PM_Transformations);
     raw_fd_ostream := fun _ w => (sc.(sc_output_error), w);
     SILModule_print := fun _ _ => print_once;
     verifyDiagnostics :=
       fun w => (negb (verify w.(emitted) sc.(sc_expected)),
                 set_verifier false w) |}.

Definition build : Build :=
  {| SWIFT_MODULE_CACHE_PATH := "/tmp/module-cache"; NDEBUG := false |}.

Definition L2 : SourceLoc := {| loc_line := 2; loc_column := 7 |}.

Definition uninitialized_use : DiagnosticRecord :=
  {| severity := error; sourceLocation := L2;
     message := "variable 'x' used before being initialized" |}.

(** A well-formed input on which every pass is silent. *)
Definition clean : Scenario :=
  {| sc_input := Some "sil_stage canonical";
     sc_serialized := false;
     sc_setup_fails := false;
     sc_sema := [];
     sc_pass := fun _ => [];
     sc_diagnostic_passes := [createMandatoryInlining;
                              createDefiniteInitialization;
                              createEmitDFDiagnostics];
     sc_optimization_passes := [createSILCombine;
                                createDeadFunctionElimination];
     sc_output_error := EmptyString;
     sc_expected := [] |}.

(** An input the parser rejects with an error. *)
Definition parse_error : Scenario :=
  {| sc_input := Some "sil_stage canonical";
     sc_serialized := false;
     sc_setup_fails := false;
     sc_sema := [ {| severity := error;
                     sourceLocation := {| loc_line := 1; loc_column := 1 |};
                     message := "expected SIL function name" |} ];
     sc_pass := fun _ => [];
     sc_diagnostic_passes := clean.(sc_diagnostic_passes);
     sc_optimization_passes := clean.(sc_optimization_passes);
     sc_output_error := EmptyString;
     sc_expected := [] |}.

(** A well-formed input whose output file cannot be opened. *)
Definition unwritable : Scenario :=
  {| sc_input := Some "sil_stage canonical";
     sc_serialized := false;
     sc_setup_fails := false;
     sc_sema := [];
     sc_pass := fun _ => [];
     sc_diagnostic_passes := clean.(sc_diagnostic_passes);
     sc_optimization_passes := clean.(sc_optimization_passes);
     sc_output_error := "Permission denied";
     sc_expected := [] |}.

(** A well-formed input on which definite initialization reports an
    error at [L2]. *)
Definition uninitialized : Scenario :=
  {| sc_input := Some "sil_stage raw";
     sc_serialized := false;
     sc_setup_fails := false;
     sc_sema := [];
     sc_pass := fun T => match T with
                         | createDefiniteInitialization => [uninitialized_use]
                         | _ => []
                         end;
     sc_diagnostic_passes := clean.(sc_diagnostic_passes);
     sc_optimization_passes := clean.(sc_optimization_passes);
     sc_output_error := EmptyString;
     sc_expected := [] |}.

(** The same input, carrying the annotation that expects the error. *)
Definition annotated : Scenario :=
  {| sc_input := uninitialized.(sc_input);
     sc_serialized := false;
     sc_setup_fails := false;
     sc_sema := [];
     sc_pass := uninitialized.(sc_pass);
     sc_diagnostic_passes := clean.(sc_diagnostic_passes);
     sc_optimization_passes := clean.(sc_optimization_passes);
     sc_output_error := EmptyString;
     sc_expected :=
       [ {| exp_sourceLocation := L2; exp_severity := error;
            messageSubstringOrPattern := "used before being initialized" |} ]
  |}.

(** The option variables of a few command lines. *)
Definition options (args : list Arg) : CommandLine :=
  match ParseCommandLineOptions args
          (cl_init build.(SWIFT_MODULE_CACHE_PATH)) with
  | Some cl => cl
  | None => cl_init build.(SWIFT_MODULE_CACHE_PATH)
  end.

Definition cl_explicit : CommandLine :=
  options [Positional "in.sil"; Opt_enum "definite-init";
           Opt_enum "dataflow-diagnostics"].

Definition cl_both : CommandLine :=
  options [Positional "in.sil"; Opt_enum "mem2reg"; Opt_enum "diagnostics";
           Opt_enum "dce"].

Definition cl_verify : CommandLine :=
  options [Positional "in.sil"; Opt_verify true; Opt_enum "definite-init"].

Definition cl_default : CommandLine :=
  options [Positional "in.sil"; Opt_enum "performance";
           Opt_sil_inline_threshold 200].

(** The state in which a run on the rejected input leaves semantic
    analysis. *)
Definition after_sema : St TestWorld :=
  snd (frontend (C := collaborators parse_error) "sil-opt" cl_explicit
         (start empty_world)).

(** The state in which a verifying run on the input with the
    uninitialized use has printed the module. *)
Definition after_print : St TestWorld :=
  snd (upto_print (C := collaborators uninitialized) build "sil-opt"
         cl_verify (start empty_world)).

End Fixture.

(* ===================================================================== *)
(** ** Further observers of a run *)
(* ===================================================================== *)

Module Observers.

(** The events that start a pipeline: the two preset calls and [PM.run]. *)
Definition is_pipeline_start (e : Event) : bool :=
  match event_options e with
  | Some _ => true
  | None => false
  end.

(** The event in which the output file is opened. *)
Definition is_open_output (e : Event) : bool :=
  match e with
  | EvOpenOutput _ => true
  | _ => false
  end.

(** The two calls into the diagnostic verifier. *)
Definition is_verifier_event (e : Event) : bool :=
  match e with
  | EvEnableDiagnosticVerifier | EvVerifyDiagnostics => true
  | _ => false
  end.

(** [stops_in P m]: whenever [m] ends the process, it ends it in a way
    that satisfies [P]. *)
Definition stops_in {World A : Type} (P : Termination -> Prop)
    (m : M World A) : Prop :=
  forall (st : St World) (t : Termination) (st' : St World),
    m st = (Stop t, st') -> P t.

(** SILOpt.cpp 499-518: what [main] does after the pipeline. *)
Definition after_pipeline {World : Type} {C : Collaborators World}
    (cl : CommandLine) : M World Empty_set :=
  bind (open_output cl)
       (fun _ => bind (print_module cl) (fun _ => exit_status cl)).

(** The text of the assertion of line 470. *)
Definition no_SILModule_yet : string :=
  "performSema() should not create a SILModule.".

(** The message of line 434. *)
Definition failed_to_open (name : string) : string :=
  "Error! Failed to open file: " ++ name ++ String "010" EmptyString.

(** The message of lines 503-504. *)
Definition while_opening (name ErrorInfo : string) : string :=
  "while opening '" ++ name ++ "': " ++ ErrorInfo
  ++ String "010" EmptyString.

End Observers.
Export Observers.

(** Further scenarios. *)
Module FixtureMore.

Import Fixture.

(** An input file that cannot be read. *)
Definition unreadable : Scenario :=
  {| sc_input := None;
     sc_serialized := false;
     sc_setup_fails := false;
     sc_sema := [];
     sc_pass := fun _ => [];
     sc_diagnostic_passes := clean.(sc_diagnostic_passes);
     sc_optimization_passes := clean.(sc_optimization_passes);
     sc_output_error := EmptyString;
     sc_expected := [] |}.

(** An invocation the compiler instance refuses. *)
Definition refused : Scenario :=
  {| sc_input := Some "sil_stage canonical";
     sc_serialized := false;
     sc_setup_fails := true;
     sc_sema := [];
     sc_pass := fun _ => [];
     sc_diagnostic_passes := clean.(sc_diagnostic_passes);
     sc_optimization_passes := clean.(sc_optimization_passes);
     sc_output_error := EmptyString;
     sc_expected := [] |}.

(** A serialized module. *)
Definition serialized : Scenario :=
  {| sc_input := Some "serialized module";
     sc_serialized := true;
     sc_setup_fails := false;
     sc_sema := [];
     sc_pass := fun _ => [];
     sc_diagnostic_passes := clean.(sc_diagnostic_passes);
     sc_optimization_passes := clean.(sc_optimization_passes);
     sc_output_error := EmptyString;
     sc_expected := [] |}.

(** The collaborators of a scenario in which semantic analysis has left a
    SIL module behind. *)
Definition collaborators_with_module (sc : Scenario)
  : Collaborators TestWorld :=
  let C := collaborators sc in
  {| getMainExecutable := getMainExecutable (Collaborators := C);
     getFileOrSTDIN := getFileOrSTDIN (Collaborators := C);
     isSerializedAST := isSerializedAST (Collaborators := C);
     path_stem := path_stem (Collaborators := C);
     CI_addDiagnosticConsumer := CI_addDiagnosticConsumer (Collaborators := C);
     CI_setup := CI_setup (Collaborators := C);
     CI_performSema := CI_performSema (Collaborators := C);
     ASTContext_hadError := ASTContext_hadError (Collaborators := C);
     CI_hasSILModule := fun _ => true;
     SerializedSILLoader_getAll :=
       SerializedSILLoader_getAll (Collaborators := C);
     enableDiagnosticVerifier := enableDiagnosticVerifier (Collaborators := C);
     runSILDiagnosticPasses := runSILDiagnosticPasses (Collaborators := C);
     runSILOptimizationPasses :=
       runSILOptimizationPasses (Collaborators := C);
     SILPassManager_run := SILPassManager_run (Collaborators := C);
     raw_fd_ostream := raw_fd_ostream (Collaborators := C);
     SILModule_print := SILModule_print (Collaborators := C);
     verifyDiagnostics := verifyDiagnostics (Collaborators := C) |}.

(** Command lines that name an output file. *)
Definition cl_explicit_out : CommandLine :=
  options [Positional "in.sil"; Opt_o "/readonly/out.sil";
           Opt_enum "definite-init"; Opt_enum "dataflow-diagnostics"].

Definition cl_verify_out : CommandLine :=
  options [Positional "in.sil"; Opt_o "/readonly/out.sil"; Opt_verify true;
           Opt_enum "definite-init"].

(** The state in which a run has loaded its module. *)
Definition at_module (sc : Scenario) (cl : CommandLine) : St TestWorld :=
  snd (load_module (C := collaborators sc) build "sil-opt" cl
         (start empty_world)).

(** A build without assertions. *)
Definition release : Build :=
  {| SWIFT_MODULE_CACHE_PATH := "/tmp/module-cache"; NDEBUG := true |}.

(** The state in which a run on the clean input reaches the pipeline, and
    the state in which the pipeline leaves it. *)
Definition at_pipeline (sc : Scenario) (cl : CommandLine) : St TestWorld :=
  snd (before_pipeline (C := collaborators sc) build "sil-opt" cl
         (start empty_world)).

Definition past_pipeline (sc : Scenario) (cl : CommandLine) : St TestWorld :=
  snd (run_pipeline (C := collaborators sc) cl (at_pipeline sc cl)).

End FixtureMore.

(* ===================================================================== *)
(** * Properties *)
(* ===================================================================== *)

Local Close Scope string_scope.
Local Open Scope list_scope.

(** ** The dispatch switch *)

Module DispatchFacts.

Lemma PassKind_eqb_eq (a b : PassKind) : PassKind_eqb a b = true <-> a = b.
Proof.
  split.
  - destruct a; destruct b; (reflexivity || discriminate).
  - intros ->. unfold PassKind_eqb. apply Nat.eqb_refl.
Qed.

Lemma PassKind_values_complete (Pass : PassKind) : In Pass PassKind_values.
Proof. destruct Pass; unfold PassKind_values; simpl; tauto. Qed.

Lemma PassKind_values_NoDup : NoDup PassKind_values.
Proof.
  apply (NoDup_map_inv PassKind_ord).
  cbv [PassKind_values map PassKind_ord].
  repeat (constructor; [simpl; intuition discriminate |]).
  constructor.
Qed.

(** Every enumerator has a case, so the switch always reaches an [add]. *)
Lemma switch_Pass_some (Pass : PassKind) :
  exists create, switch_Pass Pass = Some create.
Proof. destruct Pass; eexists; reflexivity. Qed.

Lemma instantiate_length (Passes : list PassKind) :
  List.length (instantiate Passes) = List.length Passes.
Proof.
  induction Passes as [|Pass rest IH]; [reflexivity|].
  unfold instantiate in *. simpl.
  destruct (switch_Pass_some Pass) as [create ->]. simpl. now rewrite IH.
Qed.

Lemma instantiate_cons (Pass : PassKind) (rest : list PassKind) :
  exists create, switch_Pass Pass = Some create
                 /\ instantiate (Pass :: rest) = create :: instantiate rest.
Proof.
  destruct (switch_Pass_some Pass) as [create H]. exists create.
  split; [exact H|]. unfold instantiate. simpl. now rewrite H.
Qed.

Lemma instantiate_nth (Passes : list PassKind) (i : nat) :
  nth_error (instantiate Passes) i
  = match nth_error Passes i with
    | Some Pass => switch_Pass Pass
    | None => None
    end.
Proof.
  revert i. induction Passes as [|Pass rest IH]; intros i.
  - destruct i; reflexivity.
  - destruct (instantiate_cons Pass rest) as (create & Hc & ->).
    destruct i as [|i]; simpl; [now rewrite Hc | apply IH].
Qed.

(** The factory the switch reaches is the one written in the case. *)
Lemma switch_Pass_in_cases (Pass : PassKind) (create : SILTransform) :
  switch_Pass Pass = Some create -> In (Pass, create) switch_cases.
Proof.
  intros Hc. destruct Pass; injection Hc as <-;
    unfold switch_cases; simpl; tauto.
Qed.

(** No enumerator labels cases with different factories. *)
Lemma switch_cases_functional (Pass : PassKind) (create : SILTransform) :
  In (Pass, create) switch_cases -> switch_Pass Pass = Some create.
Proof.
  intros Hin. unfold switch_cases in Hin. simpl in Hin.
  destruct Pass;
    repeat (destruct Hin as [Hin|Hin];
            [ first [discriminate Hin | now injection Hin as <-] |]);
    contradiction.
Qed.

(** The factories of distinct enumerators are distinct. *)
Lemma switch_Pass_injective (a b : PassKind) :
  switch_Pass a = switch_Pass b -> a = b.
Proof. destruct a; destruct b; (reflexivity || discriminate). Qed.

(** Every enumerator has exactly one flag name in the [Passes] table. *)
Lemma Passes_flags_cover (Pass : PassKind) :
  List.length (filter (fun e => PassKind_eqb (snd e) Pass) Passes_flags)
  = 1%nat.
Proof. destruct Pass; reflexivity. Qed.

End DispatchFacts.
Import DispatchFacts.

(** ** The monad and the loop *)

Module LoopFacts.

Section Loop.

Context {World : Type} {C : Collaborators World}.

Lemma record_log (e : Event) (st : St World) (w : World) :
  (record e st w).(log) = st.(log) ++ [e].
Proof. reflexivity. Qed.

(** The loop adds the objects of [instantiate], in order, touches nothing
    but the local [PM], and records one [EvAdd] per object. *)
Lemma for_each_loop_body (Passes : list PassKind) (PM : SILPassManager)
    (st : St World) :
  for_each Passes loop_body PM st
  = (Next {| PM_Options := PM.(PM_Options);
             PM_Analyses := PM.(PM_Analyses);
             PM_Transformations :=
               PM.(PM_Transformations) ++ instantiate Passes |},
     {| world := st.(world);
        log := st.(log) ++ map EvAdd (instantiate Passes) |}).
Proof.
  revert PM st. induction Passes as [|Pass rest IH]; intros PM st.
  - destruct PM, st. simpl. now rewrite !app_nil_r.
  - destruct (instantiate_cons Pass rest) as (create & Hc & ->).
    simpl. unfold bind at 1. unfold loop_body. rewrite Hc.
    unfold add, bind, emit, ret, record. rewrite IH. simpl.
    now rewrite <- !app_assoc.
Qed.

(** What [runCommandLineSelectedPasses] does, in full. *)
Lemma runCommandLineSelectedPasses_spec (Passes : list PassKind)
    (Options : SILOptions) (st : St World) :
  let PM := {| PM_Options := Options;
               PM_Analyses := [createCallGraphAnalysis; createAliasAnalysis;
                               createDominanceAnalysis];
               PM_Transformations := instantiate Passes |} in
  runCommandLineSelectedPasses Passes Options st
  = (Next tt,
     {| world := SILPassManager_run PM st.(world);
        log := st.(log)
               ++ [EvRegisterAnalysis createCallGraphAnalysis;
                   EvRegisterAnalysis createAliasAnalysis;
                   EvRegisterAnalysis createDominanceAnalysis]
               ++ map EvAdd (instantiate Passes)
               ++ [EvRun PM] |}).
Proof.
  intros PM. unfold runCommandLineSelectedPasses, registerAnalysis.
  unfold bind, emit, ret, call, record. simpl.
  rewrite for_each_loop_body. simpl.
  now rewrite <- !app_assoc.
Qed.

End Loop.

End LoopFacts.
Import LoopFacts.

(** ** What a part of the driver may append to the log *)

Module LogFacts.

Section Logs.

Context {World : Type} {C : Collaborators World}.

Variable P : Event -> Prop.

Lemma logs_ret {A : Type} (a : A) : logs P (ret (World := World) a).
Proof. intros st. exists []. simpl. now rewrite app_nil_r. Qed.

Lemma logs_stop {A : Type} (t : Termination) :
  logs P (stop (World := World) (A := A) t).
Proof. intros st. exists []. simpl. now rewrite app_nil_r. Qed.

Lemma logs_query {A : Type} (f : World -> A) : logs P (query f).
Proof. intros st. exists []. simpl. now rewrite app_nil_r. Qed.

Lemma logs_emit (e : Event) : P e -> logs P (emit (World := World) e).
Proof. intros He st. exists [e]. simpl. auto. Qed.

Lemma logs_call (e : Event) (f : World -> World) : P e -> logs P (call e f).
Proof. intros He st. exists [e]. simpl. auto. Qed.

Lemma logs_callv {A : Type} (e : Event) (f : World -> A * World) :
  P e -> logs P (callv e f).
Proof.
  intros He st. exists [e]. unfold callv.
  destruct (f st.(world)). simpl. auto.
Qed.

Lemma logs_bind {A B : Type} (m : M World A) (k : A -> M World B) :
  logs P m -> (forall a, logs P (k a)) -> logs P (bind m k).
Proof.
  intros Hm Hk st. destruct (Hm st) as (l1 & E1 & F1).
  unfold bind. destruct (m st) as [[a|t] st1]; simpl in *.
  - destruct (Hk a st1) as (l2 & E2 & F2).
    exists (l1 ++ l2). rewrite E2, E1, app_assoc.
    split; [reflexivity | now apply Forall_app].
  - now exists l1.
Qed.

Lemma logs_when (c : bool) (m : M World unit) :
  logs P m -> logs P (when c m).
Proof. intros Hm. destruct c; [exact Hm | apply logs_ret]. Qed.

Lemma logs_for_each {A S : Type} (xs : list A) (body : A -> S -> M World S) :
  (forall x s, logs P (body x s)) -> forall s, logs P (for_each xs body s).
Proof.
  intros Hb. induction xs as [|x rest IH]; intros s; simpl.
  - apply logs_ret.
  - apply logs_bind; [apply Hb | exact IH].
Qed.

End Logs.

(** Decompose a program of the driver along its binds and branches. *)
Ltac logs_step :=
  first
    [ apply logs_ret | apply logs_stop | apply logs_query
    | apply logs_when
    | apply logs_bind; [| intros ?]
    | apply logs_for_each; intros ? ?
    | apply logs_emit | apply logs_call | apply logs_callv
    | match goal with
      | |- logs _ (if ?b then _ else _) => destruct b
      | |- logs _ (match ?x with _ => _ end) => destruct x
      end ].

Ltac logs_auto := repeat logs_step.

Lemma logs_weaken {World : Type} {A : Type} (P Q : Event -> Prop)
    (m : M World A) :
  (forall e, P e -> Q e) -> logs P m -> logs Q m.
Proof.
  intros HPQ Hm st. destruct (Hm st) as (l & E & F).
  exists l. split; [exact E|]. revert F. apply Forall_impl. exact HPQ.
Qed.

Lemma filter_none {A : Type} (p : A -> bool) (l : list A) :
  Forall (fun x => p x = false) l -> filter p l = [].
Proof.
  induction 1 as [|x l Hx _ IH]; simpl; [reflexivity|]. now rewrite Hx.
Qed.

(** A part that appends no event of a kind leaves the events of that kind
    as they were. *)
Lemma logs_filter {World : Type} {A : Type} (p : Event -> bool)
    (m : M World A) (st : St World) :
  logs (fun e => p e = false) m ->
  filter p (snd (m st)).(log) = filter p st.(log).
Proof.
  intros Hm. destruct (Hm st) as (l & -> & F).
  rewrite filter_app, (filter_none p F). apply app_nil_r.
Qed.

End LogFacts.
Import LogFacts.

(** ** The explicit-list pipeline *)

Module PipelineFacts.

Lemma Forall_map_EvAdd (ts : list SILTransform) :
  Forall (fun e => exists T, e = EvAdd T) (map EvAdd ts).
Proof. induction ts; simpl; constructor; eauto. Qed.

(** C6: pass resolution is total over the closed set of pass identifiers.
    The switch has no default branch, it has as many cases as [PassKind]
    has enumerators, and every enumerator labels exactly one case, whose
    factory is the one object the loop body adds for it: the body never
    falls past the switch without adding, and never adds twice. *)
Theorem dispatch_total_C6 :
  switch_default = None
  /\ List.length switch_cases = List.length PassKind_values
  /\ forall Pass : PassKind,
       In Pass PassKind_values
       /\ label_count Pass = 1%nat
       /\ exists create : SILTransform,
            switch_Pass Pass = Some create
            /\ In (Pass, create) switch_cases
            /\ (forall create' : SILTransform,
                  In (Pass, create') switch_cases -> create' = create)
            /\ forall (World : Type) (PM : SILPassManager) (st : St World),
                 loop_body Pass PM st
                 = (Next (PM_add create PM), record (EvAdd create) st
                                                    st.(world)).
Proof.
  split; [reflexivity|]. split; [reflexivity|]. intros Pass.
  split; [apply PassKind_values_complete|].
  split; [destruct Pass; reflexivity|].
  destruct (switch_Pass_some Pass) as [create Hc]. exists create.
  split; [exact Hc|]. split; [|split].
  - now apply switch_Pass_in_cases.
  - intros create' Hin. apply switch_cases_functional in Hin. congruence.
  - intros World PM st. unfold loop_body. rewrite Hc. reflexivity.
Qed.

Section Explicit.

Context {World : Type} {C : Collaborators World}.

(** C5: for every explicit sequence of pass identifiers the pass manager
    that runs holds exactly one instance per listed identifier, in the
    order listed: the adds recorded are those of the list, position by
    position, the i-th object is the one the switch creates for the i-th
    identifier, and with an empty list the manager runs with no pass. *)
Theorem explicit_list_in_order_C5 (Passes : list PassKind)
    (Options : SILOptions) (st : St World) :
  let PM := {| PM_Options := Options;
               PM_Analyses := [createCallGraphAnalysis; createAliasAnalysis;
                               createDominanceAnalysis];
               PM_Transformations := instantiate Passes |} in
  runCommandLineSelectedPasses Passes Options st
  = (Next tt,
     {| world := SILPassManager_run PM st.(world);
        log := st.(log)
               ++ [EvRegisterAnalysis createCallGraphAnalysis;
                   EvRegisterAnalysis createAliasAnalysis;
                   EvRegisterAnalysis createDominanceAnalysis]
               ++ map EvAdd (instantiate Passes)
               ++ [EvRun PM] |})
  /\ List.length (instantiate Passes) = List.length Passes
  /\ (forall (i : nat) (Pass : PassKind),
        nth_error Passes i = Some Pass ->
        exists create : SILTransform,
          nth_error (instantiate Passes) i = Some create
          /\ In (Pass, create) switch_cases)
  /\ (forall i : nat,
        nth_error Passes i = None -> nth_error (instantiate Passes) i = None)
  /\ instantiate [] = [].
Proof.
  intros PM. split; [apply runCommandLineSelectedPasses_spec|].
  split; [apply instantiate_length|]. split; [|split].
  - intros i Pass Hi.
    destruct (switch_Pass_some Pass) as [create Hc]. exists create.
    split; [now rewrite instantiate_nth, Hi | now apply switch_Pass_in_cases].
  - intros i Hi. now rewrite instantiate_nth, Hi.
  - reflexivity.
Qed.

(** C10: in every explicit-list run exactly three analyses (call graph,
    alias, dominance) are registered, and the three registrations are the
    first calls on the pass manager: every add comes after them, and the
    manager that runs holds every analysis kind. *)
Theorem analyses_registered_first_C10 (Passes : list PassKind)
    (Options : SILOptions) (st : St World) :
  exists (PM : SILPassManager) (adds : list Event) (st' : St World),
    runCommandLineSelectedPasses Passes Options st = (Next tt, st')
    /\ st'.(log)
       = st.(log)
         ++ map EvRegisterAnalysis
                [createCallGraphAnalysis; createAliasAnalysis;
                 createDominanceAnalysis]
         ++ adds ++ [EvRun PM]
    /\ Forall (fun e => exists T, e = EvAdd T) adds
    /\ List.length adds = List.length Passes
    /\ PM.(PM_Analyses)
       = [createCallGraphAnalysis; createAliasAnalysis;
          createDominanceAnalysis]
    /\ NoDup PM.(PM_Analyses)
    /\ (forall A : SILAnalysis, In A PM.(PM_Analyses))
    /\ st'.(world) = SILPassManager_run PM st.(world).
Proof.
  eexists. exists (map EvAdd (instantiate Passes)). eexists.
  split; [apply runCommandLineSelectedPasses_spec|]. simpl.
  split; [reflexivity|]. split; [apply Forall_map_EvAdd|].
  split; [now rewrite length_map, instantiate_length|].
  split; [reflexivity|]. split; [|split; [|reflexivity]].
  - repeat (constructor; [simpl; intuition discriminate|]). constructor.
  - intros A. destruct A; simpl; tauto.
Qed.

End Explicit.

End PipelineFacts.

(** ** [main] *)

Module MainFacts.

Section Main.

Context {World : Type} {C : Collaborators World}.
Variable B : Build.

Ltac unfold_driver :=
  unfold main_with, upto_print, upto_output, before_pipeline, load_module,
    frontend, prepare_invocation, run_sema, stop_on_parse_error, load_sil,
    install_verifier, open_output, print_module, exit_status.

Ltac event_facts :=
  repeat split; try reflexivity; try discriminate.

(** Before the pipeline no pass is selected or run, nothing is printed and
    no verdict is asked for. *)
Lemma before_pipeline_quiet (argv0 : string) (cl : CommandLine) :
  logs (fun e => is_pass_event e = false /\ is_explicit_event e = false
                 /\ is_print e = false /\ is_verdict e = false)
       (before_pipeline B argv0 cl).
Proof. unfold_driver. logs_auto; event_facts. Qed.

Lemma frontend_quiet (argv0 : string) (cl : CommandLine) :
  logs (fun e => is_pass_event e = false) (frontend argv0 cl).
Proof. unfold_driver. logs_auto; event_facts. Qed.

(** The explicit-list pipeline records calls on the pass manager only. *)
Lemma runCommandLineSelectedPasses_logs (Passes : list PassKind)
    (Options : SILOptions) :
  logs (fun e => is_print e = false /\ is_verdict e = false
                 /\ forall o, event_options e = Some o -> o = Options)
       (runCommandLineSelectedPasses Passes Options).
Proof.
  intros st. rewrite runCommandLineSelectedPasses_spec. simpl.
  eexists. split; [reflexivity|].
  repeat (constructor; [event_facts; simpl; congruence|]).
  apply Forall_app. split.
  - induction (instantiate Passes); simpl; constructor;
      [event_facts; simpl; congruence | assumption].
  - constructor; [|constructor]. event_facts. simpl. congruence.
Qed.


(** With a preset group, no call on a pass manager of the driver's own. *)
Lemma run_pipeline_preset_logs (cl : CommandLine) :
  cl.(OptimizationGroup) <> Unknown ->
  logs (fun e => is_explicit_event e = false) (run_pipeline cl).
Proof.
  intros Hg. unfold run_pipeline.
  destruct cl.(OptimizationGroup); [contradiction| |]; simpl;
    apply logs_call; reflexivity.
Qed.

Lemma after_pipeline_logs (cl : CommandLine) :
  logs (fun e => is_explicit_event e = false /\ is_pass_event e = false)
       (bind (open_output cl)
             (fun _ => bind (print_module cl) (fun _ => exit_status cl))).
Proof. unfold_driver. logs_auto; event_facts. Qed.


(** A part that stops makes everything sequenced after it stop there. *)
Lemma bind_stop {A B' : Type} (m : M World A) (k : A -> M World B')
    (st st' : St World) (t : Termination) :
  m st = (Stop t, st') -> bind m k st = (Stop t, st').
Proof. intros H. unfold bind. now rewrite H. Qed.

Lemma bind_next {A B' : Type} (m : M World A) (k : A -> M World B')
    (st st' : St World) (a : A) :
  m st = (Next a, st') -> bind m k st = k a st'.
Proof. intros H. unfold bind. now rewrite H. Qed.

Lemma load_module_quiet (argv0 : string) (cl : CommandLine) :
  logs (fun e => is_pass_event e = false) (load_module B argv0 cl).
Proof. unfold_driver. logs_auto; event_facts. Qed.

(** When the front end gets through, the input was read, setup succeeded
    on the invocation built from it, and the world left is the one
    semantic analysis produced. *)
Lemma frontend_world (argv0 : string) (cl : CommandLine) (st st' : St World)
    (IsModule : bool) :
  frontend argv0 cl st = (Next IsModule, st') ->
  exists (buffer : MemoryBuffer) (w : World),
    getFileOrSTDIN cl.(InputFilename) st.(world) = Some buffer
    /\ CI_setup
         (fst (invocation_for (getMainExecutable argv0 st.(world)) cl buffer))
         (CI_addDiagnosticConsumer st.(world)) = (false, w)
    /\ st'.(world) = CI_performSema w.
Proof.
  unfold_driver. unfold when, bind, call, callv, query, emit, stop, ret.
  destruct cl.(PrintStats); simpl;
    (destruct (getFileOrSTDIN _ _) as [buffer|]; simpl; [|discriminate]);
    match goal with
    | |- context [CI_setup ?i ?w] =>
        destruct (CI_setup i w) as [[|] w'] eqn:E; simpl; [discriminate|];
        intros H; injection H as _ <-; exists buffer, w'; simpl; auto
    end.
Qed.

(** And conversely. *)
Lemma frontend_reaches (argv0 : string) (cl : CommandLine) (st : St World)
    (buffer : MemoryBuffer) (w : World) :
  getFileOrSTDIN cl.(InputFilename) st.(world) = Some buffer ->
  CI_setup
    (fst (invocation_for (getMainExecutable argv0 st.(world)) cl buffer))
    (CI_addDiagnosticConsumer st.(world)) = (false, w) ->
  exists st' : St World,
    frontend argv0 cl st = (Next (isSerializedAST buffer), st')
    /\ st'.(world) = CI_performSema w.
Proof.
  intros Hb Hs. unfold_driver.
  unfold when, bind, call, callv, query, emit, stop, ret.
  unfold invocation_for in *. simpl in Hs.
  destruct cl.(PrintStats); simpl; rewrite Hb; simpl; rewrite Hs; simpl;
    eexists; split; reflexivity.
Qed.

(** C2: when semantic analysis has ended with the error flag set, [main]
    returns 1 on the spot: the run ends in the very state semantic
    analysis left (the world is what [performSema] produced, nothing is
    appended to the log), and no pass was selected or run before. *)
Theorem parse_error_stops_C2 (argv0 : string) (cl : CommandLine)
    (st st' : St World) (IsModule : bool) :
  frontend argv0 cl st = (Next IsModule, st') ->
  ASTContext_hadError st'.(world) = true ->
  main_with B argv0 cl st = (Stop (main_returns 1), st')
  /\ filter is_pass_event st'.(log) = filter is_pass_event st.(log)
  /\ exists (buffer : MemoryBuffer) (w : World),
       getFileOrSTDIN cl.(InputFilename) st.(world) = Some buffer
       /\ CI_setup
            (fst (invocation_for (getMainExecutable argv0 st.(world)) cl
                    buffer))
            (CI_addDiagnosticConsumer st.(world)) = (false, w)
       /\ st'.(world) = CI_performSema w.
Proof.
  intros Hf He. split; [|split].
  - unfold main_with, upto_print, upto_output, before_pipeline, load_module.
    do 4 apply bind_stop. erewrite bind_next; [|exact Hf].
    apply bind_stop. unfold stop_on_parse_error, bind, query, stop.
    now rewrite He.
  - pose proof (logs_filter is_pass_event st (frontend_quiet argv0 cl)) as H.
    now rewrite Hf in H.
  - exact (frontend_world _ _ _ Hf).
Qed.

(** On a run that reaches the end of [main], the status returned is the
    error flag of the AST context in standard mode, and in verification
    mode the result of [verifyDiagnostics] alone. *)
Lemma exit_status_at_end (argv0 : string) (cl : CommandLine)
    (st st' : St World) :
  upto_print B argv0 cl st = (Next tt, st') ->
  main_with B argv0 cl st
  = if cl.(VerifyMode)
    then (Stop (main_returns (Z.b2z (fst (verifyDiagnostics st'.(world))))),
          record EvVerifyDiagnostics st' (snd (verifyDiagnostics st'.(world))))
    else (Stop (main_returns (Z.b2z (ASTContext_hadError st'.(world)))), st').
Proof.
  intros H. unfold main_with. erewrite bind_next; [|exact H].
  unfold exit_status, bind, query, callv, stop, ret.
  destruct cl.(VerifyMode); [|reflexivity].
  now destruct (verifyDiagnostics _).
Qed.

(** With a preset group the pipeline step is the one call of the group's
    preset, the whole run is the same for any other explicit list, and no
    call on a pass manager of the driver is recorded. *)
Lemma preset_group_facts (argv0 : string) (cl : CommandLine)
    (st : St World) :
  cl.(OptimizationGroup) <> Unknown ->
  run_pipeline cl st
  = match cl.(OptimizationGroup) with
    | Diagnostics =>
        (Next tt,
         record (EvRunSILDiagnosticPasses (SILOpts_of cl)) st
                (runSILDiagnosticPasses (SILOpts_of cl) st.(world)))
    | _ =>
        (Next tt,
         record (EvRunSILOptimizationPasses (SILOpts_of cl)) st
                (runSILOptimizationPasses (SILOpts_of cl) st.(world)))
    end
  /\ (forall Passes' : list PassKind,
        main_with B argv0 (with_Passes Passes' cl) st
        = main_with B argv0 cl st)
  /\ filter is_explicit_event (snd (main_with B argv0 cl st)).(log)
     = filter is_explicit_event st.(log).
Proof.
  intros Hg. split; [|split].
  - unfold run_pipeline. destruct cl.(OptimizationGroup);
      [contradiction | reflexivity | reflexivity].
  - intros Passes'. destruct cl. simpl in Hg.
    destruct OptimizationGroup0; [contradiction | reflexivity | reflexivity].
  - apply logs_filter. unfold main_with, upto_print, upto_output.
    apply logs_bind; [|intros _; apply logs_stop || idtac].
    + apply logs_bind; [apply logs_bind|].
      * eapply logs_weaken; [|apply before_pipeline_quiet]. simpl. tauto.
      * intros _. apply logs_bind;
          [now apply run_pipeline_preset_logs|].
        intros _. unfold open_output. logs_auto; reflexivity.
      * intros _. unfold print_module. logs_auto; reflexivity.
    + unfold exit_status. logs_auto; reflexivity.
Qed.

(** Without a group the pipeline is the explicit-list one. *)
Lemma run_pipeline_Unknown (cl : CommandLine) (st : St World) :
  cl.(OptimizationGroup) = Unknown ->
  run_pipeline cl st
  = runCommandLineSelectedPasses cl.(Passes) (SILOpts_of cl) st.
Proof. intros Hg. unfold run_pipeline. now rewrite Hg. Qed.


(** An occurrence of another option leaves [EnableSILVerifyAll] alone. *)
Lemma apply_arg_verify_all (cl cl' : CommandLine) (a : Arg) :
  sets_verify_all a = false ->
  apply_arg cl a = Some cl' ->
  cl'.(EnableSILVerifyAll) = cl.(EnableSILVerifyAll).
Proof.
  intros Ha H. destruct cl. destruct a; simpl in *; try discriminate Ha;
    try (injection H as <-; reflexivity).
  destruct (lookup_flag flag OptimizationGroup_flags);
    [injection H as <-; reflexivity|].
  destruct (lookup_flag flag Passes_flags);
    [injection H as <-; reflexivity | discriminate].
Qed.

Lemma ParseCommandLineOptions_verify_all (args : list Arg)
    (cl cl' : CommandLine) :
  existsb sets_verify_all args = false ->
  ParseCommandLineOptions args cl = Some cl' ->
  cl'.(EnableSILVerifyAll) = cl.(EnableSILVerifyAll).
Proof.
  revert cl. induction args as [|a rest IH]; intros cl Hn H; simpl in *.
  - now injection H as <-.
  - apply orb_false_iff in Hn. destruct Hn as [Ha Hrest].
    destruct (apply_arg cl a) as [cl1|] eqn:E; [|discriminate].
    rewrite (IH cl1 Hrest H). exact (apply_arg_verify_all _ _ Ha E).
Qed.

(** Every pipeline is started, and with the options of lines 483-489. *)
Lemma run_pipeline_started (cl : CommandLine) (st : St World) :
  exists l : list Event,
    (snd (run_pipeline cl st)).(log) = st.(log) ++ l
    /\ Forall (fun e => forall o, event_options e = Some o
                                  -> o = SILOpts_of cl) l
    /\ Exists (fun e => event_options e = Some (SILOpts_of cl)) l.
Proof.
  unfold run_pipeline.
  destruct (OptGroup_eqb _ Diagnostics);
    [| destruct (OptGroup_eqb _ Performance)].
  - eexists. split; [reflexivity|]. split.
    + constructor; [simpl; congruence | constructor].
    + now constructor.
  - eexists. split; [reflexivity|]. split.
    + constructor; [simpl; congruence | constructor].
    + now constructor.
  - destruct (runCommandLineSelectedPasses_logs cl.(Passes) (SILOpts_of cl)
                st) as (l & El & Fl).
    rewrite runCommandLineSelectedPasses_spec in *. simpl in *.
    eexists. split; [reflexivity|]. split.
    + apply app_inv_head in El. rewrite El.
      revert Fl. apply Forall_impl. tauto.
    + do 3 apply Exists_cons_tl. apply Exists_app. right.
      now constructor.
Qed.

End Main.

End MainFacts.

(** ** The diagnostic verifier *)

Module VerifierFacts.

Lemma filter_nil_Forall {A : Type} (p : A -> bool) (l : list A) :
  filter p l = [] -> Forall (fun x => p x = false) l.
Proof.
  induction l as [|x l IH]; simpl; [constructor|].
  destruct (p x) eqn:E; [discriminate|]. auto.
Qed.

Lemma is_nil_true {A : Type} (l : list A) : is_nil l = true <-> l = [].
Proof. destruct l; simpl; split; congruence. Qed.

(** Exactly one element passes a test when the list splits around it. *)
Lemma filter_length_one {A : Type} (p : A -> bool) (l : list A) :
  List.length (filter p l) = 1%nat
  <-> exists l1 a l2,
        l = l1 ++ a :: l2 /\ p a = true
        /\ Forall (fun x => p x = false) (l1 ++ l2).
Proof.
  split.
  - induction l as [|x l IH]; simpl; [discriminate|].
    destruct (p x) eqn:E; simpl.
    + intros H. injection H as H. apply length_zero_iff_nil in H.
      exists [], x, l. simpl. auto using filter_nil_Forall.
    + intros H. destruct (IH H) as (l1 & a & l2 & -> & Ha & F).
      exists (x :: l1), a, l2. simpl. auto.
  - intros (l1 & a & l2 & -> & Ha & F). apply Forall_app in F.
    destruct F as [F1 F2].
    rewrite filter_app. simpl. rewrite Ha.
    now rewrite (filter_none p F1), (filter_none p F2).
Qed.

Lemma unmatched_expected_In (actual : list DiagnosticRecord)
    (expected : list ExpectedDiagnostic) (e : ExpectedDiagnostic) :
  In e (unmatched_expected actual expected)
  <-> In e expected /\ ~ matched_by_exactly_one e actual.
Proof.
  unfold unmatched_expected, matched_by_exactly_one.
  rewrite filter_In, negb_true_iff, Nat.eqb_neq, filter_length_one.
  reflexivity.
Qed.

Lemma unmatched_actual_In (actual : list DiagnosticRecord)
    (expected : list ExpectedDiagnostic) (a : DiagnosticRecord) :
  In a (unmatched_actual actual expected)
  <-> In a actual /\ forall e, In e expected -> matches e a = false.
Proof.
  unfold unmatched_actual. rewrite filter_In, negb_true_iff.
  split; intros [Ha H]; (split; [exact Ha|]).
  - intros e He. destruct (matches e a) eqn:E; [|reflexivity].
    rewrite <- H. symmetry. apply existsb_exists. eauto.
  - destruct (existsb _ expected) eqn:E; [|reflexivity].
    apply existsb_exists in E. destruct E as (e & He & Hm).
    now rewrite (H e He) in Hm.
Qed.

Lemma nil_iff_no_member {A : Type} (l : list A) :
  l = [] <-> forall x, ~ In x l.
Proof.
  split; [intros -> x []|].
  destruct l as [|x l]; [reflexivity|]. intros H. destruct (H x). now left.
Qed.

(** Whether an expected entry is matched exactly once can be decided. *)
Lemma matched_by_exactly_one_dec (e : ExpectedDiagnostic)
    (actual : list DiagnosticRecord) :
  matched_by_exactly_one e actual \/ ~ matched_by_exactly_one e actual.
Proof.
  unfold matched_by_exactly_one. rewrite <- filter_length_one.
  destruct (Nat.eq_dec (List.length (filter (matches e) actual)) 1); auto.
Qed.

(** C8: the verdict is the two-sided conjunction.  Verification succeeds
    exactly when every expected entry is matched by exactly one actual
    diagnostic (same severity, same location, message satisfying the
    pattern) and every actual diagnostic matches some expected entry; the
    failures reported are one per unmatched expected entry and one per
    unmatched actual diagnostic, of two kinds kept apart, and the verdict
    is success exactly when there is none. *)
Theorem verify_two_sided_C8 (actual : list DiagnosticRecord)
    (expected : list ExpectedDiagnostic) :
  (verify actual expected = true
   <-> (forall e, In e expected -> matched_by_exactly_one e actual)
       /\ (forall a, In a actual ->
                     exists e, In e expected /\ matches e a = true))
  /\ (forall e, In (UnmatchedExpected e) (failures actual expected)
                <-> In e expected /\ ~ matched_by_exactly_one e actual)
  /\ (forall a, In (UnmatchedActual a) (failures actual expected)
                <-> In a actual
                    /\ forall e, In e expected -> matches e a = false)
  /\ List.length (failures actual expected)
     = (List.length (unmatched_expected actual expected)
        + List.length (unmatched_actual actual expected))%nat
  /\ (verify actual expected = true <-> failures actual expected = []).
Proof.
  split; [|split; [|split; [|split]]].
  - unfold verify. rewrite andb_true_iff, !is_nil_true, !nil_iff_no_member.
    split; intros [HE HA]; split.
    + intros e He. destruct (matched_by_exactly_one_dec e actual) as [H|H];
        [exact H|]. destruct (HE e). apply unmatched_expected_In. auto.
    + intros a Ha.
      destruct (existsb (fun e => matches e a) expected) eqn:E.
      * apply existsb_exists in E. exact E.
      * destruct (HA a). unfold unmatched_actual.
        apply filter_In. now rewrite E.
    + intros e He. apply unmatched_expected_In in He.
      destruct He as [He Hn]. auto.
    + intros a Ha. apply unmatched_actual_In in Ha.
      destruct Ha as [Ha Hn]. destruct (HA a Ha) as (e & He & Hm).
      now rewrite (Hn e He) in Hm.
  - intros e. unfold failures. rewrite in_app_iff, !in_map_iff.
    rewrite <- unmatched_expected_In. split.
    + intros [(e' & Heq & He')|(a & Heq & _)]; [|discriminate].
      now injection Heq as <-.
    + intros He. left. eauto.
  - intros a. unfold failures. rewrite in_app_iff, !in_map_iff.
    rewrite <- unmatched_actual_In. split.
    + intros [(e & Heq & _)|(a' & Heq & Ha')]; [discriminate|].
      now injection Heq as <-.
    + intros Ha. right. eauto.
  - unfold failures. now rewrite length_app, !length_map.
  - unfold verify, failures. rewrite andb_true_iff, !is_nil_true. split.
    + now intros [-> ->].
    + intros H. apply app_eq_nil in H. destruct H as [H1 H2].
      apply map_eq_nil in H1, H2. auto.
Qed.

End VerifierFacts.

(** ** Runs in the concrete world *)

Module Scenarios.

Import Fixture.

Local Open Scope string_scope.

(** A rejected input: [main] returns 1 right after semantic analysis. *)
Lemma parse_error_stops_C2_witness :
  frontend (C := collaborators parse_error) "sil-opt" cl_explicit
    (start empty_world) = (Next false, after_sema)
  /\ ASTContext_hadError (Collaborators := collaborators parse_error)
       after_sema.(world) = true
  /\ main_with (C := collaborators parse_error) build "sil-opt" cl_explicit
       (start empty_world) = (Stop (main_returns 1), after_sema).
Proof.
  assert (Hf : frontend (C := collaborators parse_error) "sil-opt"
                 cl_explicit (start empty_world) = (Next false, after_sema))
    by (vm_compute; reflexivity).
  assert (He : ASTContext_hadError (Collaborators := collaborators parse_error)
                 after_sema.(world) = true)
    by (vm_compute; reflexivity).
  split; [exact Hf|]. split; [exact He|].
  apply (MainFacts.parse_error_stops_C2 (C := collaborators parse_error) build
           "sil-opt" cl_explicit (start empty_world) Hf He).
Defined.

(** The same status in standard mode and in verification mode, computed. *)
Example exit_status_standard :
  fst (run (main_with (C := collaborators uninitialized) build "sil-opt"
              cl_explicit) empty_world) = main_returns 1
  /\ fst (run (main_with (C := collaborators clean) build "sil-opt"
                 cl_explicit) empty_world) = main_returns 0.
Proof. split; vm_compute; reflexivity. Qed.

(** In verification mode an expected error leaves the error flag set and
    the status 0: the verdict replaces the flag. *)
Example verdict_replaces_error_flag :
  ASTContext_hadError (Collaborators := collaborators annotated)
    (snd (run (main_with (C := collaborators annotated) build "sil-opt"
                 cl_verify) empty_world)).(world) = true
  /\ fst (run (main_with (C := collaborators annotated) build "sil-opt"
                 cl_verify) empty_world) = main_returns 0.
Proof. split; vm_compute; reflexivity. Qed.


(** With the option given, the flag follows it. *)
Example verify_all_off :
  option_map (fun cl => (SILOpts_of cl).(VerifyAll))
    (ParseCommandLineOptions [Opt_enable_sil_verify_all false]
       (cl_init build.(SWIFT_MODULE_CACHE_PATH))) = Some false.
Proof. reflexivity. Qed.

(** No expected annotation and one actual error: failure, with exactly one
    unmatched actual and no unmatched expected. *)
Example verify_unexpected_error :
  verify [uninitialized_use] [] = false
  /\ failures [uninitialized_use] [] = [UnmatchedActual uninitialized_use].
Proof. split; reflexivity. Qed.

(** One expected error at [L2] and exactly that error emitted: success. *)
Example verify_expected_error :
  verify [uninitialized_use]
         [ {| exp_sourceLocation := L2; exp_severity := error;
              messageSubstringOrPattern := "used before being initialized" |} ]
  = true.
Proof. reflexivity. Qed.

(** The same error emitted twice matches the expected entry twice: the
    entry is not matched by exactly one diagnostic. *)
Example verify_duplicate_error :
  verify [uninitialized_use; uninitialized_use]
         [ {| exp_sourceLocation := L2; exp_severity := error;
              messageSubstringOrPattern := "used before being initialized" |} ]
  = false.
Proof. reflexivity. Qed.

End Scenarios.

(** ** The option tables *)

Module TableFacts.

(** In a table without repeated names, lookup finds exactly the entries. *)
Lemma lookup_flag_In {A : Type} (table : list (string * A)) (flag : string)
    (v : A) :
  NoDup (map fst table) ->
  (In (flag, v) table <-> lookup_flag flag table = Some v).
Proof.
  unfold lookup_flag. induction table as [|[k x] rest IH]; simpl.
  - intros _. split; [contradiction | discriminate].
  - intros Hnd. inversion Hnd as [|? ? Hk Hrest]; subst.
    destruct (String.eqb k flag) eqn:E.
    + apply String.eqb_eq in E. subst k. split.
      * intros [H|H]; [now injection H as -> |].
        destruct Hk. now apply (in_map fst) in H.
      * intros H. injection H as ->. now left.
    + apply String.eqb_neq in E. rewrite <- (IH Hrest). split.
      * intros [H|H]; [injection H as H _; contradiction | exact H].
      * now right.
Qed.

(** In a table without repeated values, a value has one name. *)
Lemma one_name {A : Type} (table : list (string * A)) (f1 f2 : string)
    (v : A) :
  NoDup (map snd table) ->
  In (f1, v) table -> In (f2, v) table -> f1 = f2.
Proof.
  induction table as [|[k x] rest IH]; simpl; [contradiction|].
  intros Hnd H1 H2. inversion Hnd as [|? ? Hx Hrest]; subst.
  destruct H1 as [H1|H1], H2 as [H2|H2].
  - congruence.
  - injection H1 as _ ->. destruct Hx. now apply (in_map snd) in H2.
  - injection H2 as _ ->. destruct Hx. now apply (in_map snd) in H1.
  - now apply IH.
Qed.

Lemma Passes_flags_names_NoDup : NoDup (map fst Passes_flags).
Proof.
  unfold Passes_flags. simpl.
  repeat (constructor; [simpl; intuition discriminate|]). constructor.
Qed.

Lemma Passes_flags_kinds_NoDup : NoDup (map snd Passes_flags).
Proof.
  apply (NoDup_map_inv PassKind_ord). unfold Passes_flags. simpl.
  repeat (constructor; [simpl; intuition discriminate|]). constructor.
Qed.

(** The flag names of the [Passes] option and the enumerators of
    [PassKind] correspond one to one: no name is written twice, no
    enumerator is given two names, none is left without a name, and a name
    resolves to the enumerator written beside it. *)
Theorem Passes_flags_one_to_one :
  NoDup (map fst Passes_flags)
  /\ NoDup (map snd Passes_flags)
  /\ (forall Pass : PassKind, exists flag : string,
        In (flag, Pass) Passes_flags)
  /\ (forall (flag : string) (Pass : PassKind),
        In (flag, Pass) Passes_flags
        <-> lookup_flag flag Passes_flags = Some Pass)
  /\ (forall (f1 f2 : string) (Pass : PassKind),
        lookup_flag f1 Passes_flags = Some Pass ->
        lookup_flag f2 Passes_flags = Some Pass -> f1 = f2).
Proof.
  pose proof Passes_flags_names_NoDup as Hn.
  pose proof Passes_flags_kinds_NoDup as Hk.
  split; [exact Hn|]. split; [exact Hk|]. split; [|split].
  - intros Pass. destruct Pass; eexists; unfold Passes_flags; simpl;
      repeat (first [left; reflexivity | right]).
  - intros flag Pass. now apply lookup_flag_In.
  - intros f1 f2 Pass H1 H2.
    apply (lookup_flag_In _ _ _ Hn) in H1, H2.
    exact (one_name _ _ _ _ Hk H1 H2).
Qed.

(** The group flags: a name that selects a group selects Diagnostics or
    Performance, never [Unknown], and is not the name of a pass, so an
    enum flag on the command line is a group or a pass and never both. *)
Theorem group_flags_apart (flag : string) (g : OptGroup) :
  lookup_flag flag OptimizationGroup_flags = Some g ->
  g <> Unknown
  /\ lookup_flag flag Passes_flags = None
  /\ (forall flag' : string,
        lookup_flag flag' OptimizationGroup_flags = Some g -> flag' = flag).
Proof.
  assert (Hn : NoDup (map fst OptimizationGroup_flags)).
  { unfold OptimizationGroup_flags. simpl.
    repeat (constructor; [simpl; intuition discriminate|]). constructor. }
  intros H. apply (lookup_flag_In _ _ _ Hn) in H.
  assert (Hf : forall flag', In (flag', g) OptimizationGroup_flags ->
                             flag' = flag).
  { intros flag' H'. unfold OptimizationGroup_flags in H, H'.
    simpl in H, H'.
    destruct H as [H|[H|[]]]; destruct H' as [H'|[H'|[]]]; congruence. }
  split; [|split].
  - unfold OptimizationGroup_flags in H. simpl in H.
    destruct H as [H|[H|[]]]; congruence.
  - unfold OptimizationGroup_flags in H. simpl in H.
    destruct H as [H|[H|[]]]; injection H as <- _; reflexivity.
  - intros flag' H'. apply Hf. now apply (lookup_flag_In _ _ _ Hn).
Qed.

(** Two flags that lead the switch to the same factory are the same flag:
    no pass can be requested under two names. *)
Theorem flags_to_factories_injective (f1 f2 : string) (p1 p2 : PassKind) :
  lookup_flag f1 Passes_flags = Some p1 ->
  lookup_flag f2 Passes_flags = Some p2 ->
  switch_Pass p1 = switch_Pass p2 ->
  f1 = f2 /\ p1 = p2.
Proof.
  intros H1 H2 Hs. apply switch_Pass_injective in Hs. subst p2.
  split; [|reflexivity].
  apply (lookup_flag_In _ _ _ Passes_flags_names_NoDup) in H1, H2.
  exact (one_name _ _ _ _ Passes_flags_kinds_NoDup H1 H2).
Qed.

End TableFacts.

(** ** How a part of the driver may end the process *)

Module StopFacts.

Section Stops.

Context {World : Type} {C : Collaborators World}.

Variable P : Termination -> Prop.

Lemma stops_ret {A : Type} (a : A) : stops_in P (ret (World := World) a).
Proof. intros st t st' H. discriminate H. Qed.

Lemma stops_stop {A : Type} (t : Termination) :
  P t -> stops_in P (stop (World := World) (A := A) t).
Proof. intros Ht st t' st' H. injection H as <- _. exact Ht. Qed.

Lemma stops_query {A : Type} (f : World -> A) : stops_in P (query f).
Proof. intros st t st' H. discriminate H. Qed.

Lemma stops_emit (e : Event) : stops_in P (emit (World := World) e).
Proof. intros st t st' H. discriminate H. Qed.

Lemma stops_call (e : Event) (f : World -> World) : stops_in P (call e f).
Proof. intros st t st' H. discriminate H. Qed.

Lemma stops_callv {A : Type} (e : Event) (f : World -> A * World) :
  stops_in P (callv e f).
Proof.
  intros st t st' H. unfold callv in H.
  destruct (f st.(world)). discriminate H.
Qed.

Lemma stops_bind {A B : Type} (m : M World A) (k : A -> M World B) :
  stops_in P m -> (forall a, stops_in P (k a)) -> stops_in P (bind m k).
Proof.
  intros Hm Hk st t st' H. unfold bind in H.
  destruct (m st) as [[a|t0] st0] eqn:E.
  - exact (Hk a st0 t st' H).
  - injection H as <- _. exact (Hm st t0 st0 E).
Qed.

Lemma stops_when (c : bool) (m : M World unit) :
  stops_in P m -> stops_in P (when c m).
Proof. intros Hm. destruct c; [exact Hm | apply stops_ret]. Qed.

Lemma stops_for_each {A S : Type} (xs : list A) (body : A -> S -> M World S) :
  (forall x s, stops_in P (body x s)) ->
  forall s, stops_in P (for_each xs body s).
Proof.
  intros Hb. induction xs as [|x rest IH]; intros s; simpl.
  - apply stops_ret.
  - apply stops_bind; [apply Hb | exact IH].
Qed.

End Stops.

Ltac stops_step :=
  first
    [ apply stops_ret | apply stops_query | apply stops_when
    | apply stops_bind; [| intros ?]
    | apply stops_for_each; intros ? ?
    | apply stops_emit | apply stops_call | apply stops_callv
    | apply stops_stop
    | match goal with
      | |- stops_in _ (if ?b then _ else _) => destruct b eqn:?
      | |- stops_in _ (match ?x with _ => _ end) => destruct x eqn:?
      end ].

Ltac stops_auto := repeat stops_step.

(** The monad law that lets a run be cut at any statement. *)
Lemma bind_assoc {World A B D : Type} (m : M World A) (f : A -> M World B)
    (g : B -> M World D) (st : St World) :
  bind (bind m f) g st = bind m (fun a => bind (f a) g) st.
Proof. unfold bind. destruct (m st) as [[a|t] st0]; reflexivity. Qed.

(** A program of type [M World Empty_set] always ends the process. *)
Lemma always_stops {World : Type} (m : M World Empty_set) (st : St World) :
  exists (t : Termination) (st' : St World), m st = (Stop t, st').
Proof. destruct (m st) as [[[]|t] st']. eauto. Qed.

End StopFacts.
Import StopFacts.

(** ** Runs of [main], path by path *)

Module RunFacts.

Section Runs.

Context {World : Type} {C : Collaborators World}.
Variable B : Build.

Ltac unfold_main :=
  unfold main_with, upto_print, upto_output, before_pipeline, load_module,
    frontend, prepare_invocation, run_sema, stop_on_parse_error, load_sil,
    install_verifier, run_pipeline, runCommandLineSelectedPasses,
    registerAnalysis, add, loop_body, open_output, print_module,
    exit_status.

Ltac unfold_monad :=
  unfold when, bind, call, callv, query, emit, stop, ret, record.

(** [main] cut at the pipeline. *)
Lemma main_with_cut (argv0 : string) (cl : CommandLine) (st : St World) :
  main_with B argv0 cl st
  = bind (before_pipeline B argv0 cl)
         (fun _ => bind (run_pipeline cl) (fun _ => after_pipeline cl)) st.
Proof.
  unfold main_with, upto_print, upto_output, after_pipeline, bind.
  destruct (before_pipeline B argv0 cl st) as [[[]|t0] st0]; [|reflexivity].
  destruct (run_pipeline cl st0) as [[[]|t1] st1]; [|reflexivity].
  destruct (open_output cl st1) as [[[]|t2] st2]; reflexivity.
Qed.

(** The ways [main] can end: [exit(-1)], [return 0], [return 1], and in a
    build with assertions the failed assertion of line 470.  No other
    status is ever produced. *)
Theorem main_with_statuses (argv0 : string) (cl : CommandLine)
    (st : St World) :
  exists (t : Termination) (st' : St World),
    main_with B argv0 cl st = (Stop t, st')
    /\ (t = exit_called (-1) \/ t = main_returns 0 \/ t = main_returns 1
        \/ (B.(NDEBUG) = false /\ t = assertion_failed no_SILModule_yet)).
Proof.
  destruct (always_stops (main_with B argv0 cl) st) as (t & st' & H).
  exists t, st'. split; [exact H|]. revert st t st' H.
  change (stops_in
            (fun t => t = exit_called (-1) \/ t = main_returns 0
                      \/ t = main_returns 1
                      \/ (B.(NDEBUG) = false
                          /\ t = assertion_failed no_SILModule_yet))
            (main_with B argv0 cl)).
  unfold_main. stops_auto; auto.
  - right. right. right. split; [|reflexivity].
    match goal with
    | H : negb _ && _ = true |- _ =>
        apply andb_true_iff in H; destruct H as [H _];
        now apply negb_true_iff in H
    end.
  - match goal with
    | |- _ \/ main_returns (Z.b2z ?b) = _ \/ _ => destruct b; auto
    end.
Qed.



(** An input that cannot be read: [main] reports it on stderr and calls
    [exit(-1)]; the world is as it was, and neither the compiler instance
    nor any later step is reached. *)
Theorem unreadable_input_exits (argv0 : string) (cl : CommandLine)
    (st : St World) :
  getFileOrSTDIN cl.(InputFilename) st.(world) = None ->
  main_with B argv0 cl st
  = (Stop (exit_called (-1)),
     {| world := st.(world);
        log := st.(log)
               ++ (if cl.(PrintStats) then [EvEnableStatistics] else [])
               ++ [EvGetFileOrSTDIN cl.(InputFilename);
                   EvStderr (failed_to_open cl.(InputFilename))] |}).
Proof.
  intros H. unfold_main. unfold_monad.
  destruct cl.(PrintStats); simpl; rewrite H; simpl;
    now rewrite <- ?app_assoc.
Qed.

(** A failed [CI.setup]: [main] returns 1 at once; semantic analysis is
    not run and nothing later happens. *)
Theorem setup_failure_returns_1 (argv0 : string) (cl : CommandLine)
    (st : St World) (buffer : MemoryBuffer) (w : World) :
  getFileOrSTDIN cl.(InputFilename) st.(world) = Some buffer ->
  CI_setup
    (fst (invocation_for (getMainExecutable argv0 st.(world)) cl buffer))
    (CI_addDiagnosticConsumer st.(world)) = (true, w) ->
  main_with B argv0 cl st
  = (Stop (main_returns 1),
     {| world := w;
        log := st.(log)
               ++ (if cl.(PrintStats) then [EvEnableStatistics] else [])
               ++ [EvGetFileOrSTDIN cl.(InputFilename);
                   EvAddDiagnosticConsumer;
                   EvSetup (fst (invocation_for
                                   (getMainExecutable argv0 st.(world)) cl
                                   buffer))] |}).
Proof.
  intros Hb Hs. unfold_main. unfold_monad.
  unfold invocation_for in *. simpl in Hs.
  destruct cl.(PrintStats); simpl; rewrite Hb; simpl; rewrite Hs; simpl;
    now rewrite <- ?app_assoc.
Qed.

(** An output that cannot be opened: after the pipeline has run, [main]
    reports the error on stderr and returns 1, in either mode and whatever
    the error flag; the module is not printed and no verdict is asked
    for. *)
Theorem output_failure_returns_1 (argv0 : string) (cl : CommandLine)
    (st st1 : St World) (ErrorInfo : string) (w : World) :
  bind (before_pipeline B argv0 cl) (fun _ => run_pipeline cl) st
  = (Next tt, st1) ->
  raw_fd_ostream cl.(OutputFilename) st1.(world) = (ErrorInfo, w) ->
  ErrorInfo <> EmptyString ->
  main_with B argv0 cl st
  = (Stop (main_returns 1),
     {| world := w;
        log := st1.(log)
               ++ [EvOpenOutput cl.(OutputFilename);
                   EvStderr (while_opening cl.(OutputFilename) ErrorInfo)]
     |}).
Proof.
  intros Hp Ho He. rewrite main_with_cut.
  unfold bind in Hp |- *.
  destruct (before_pipeline B argv0 cl st) as [[[]|t0] st0];
    [|discriminate Hp].
  rewrite Hp. unfold after_pipeline, open_output. unfold_monad.
  rewrite Ho. apply String.eqb_neq in He. rewrite He. simpl.
  now rewrite <- app_assoc.
Qed.

Lemma Forall_adds (Q : Event -> Prop) (ts : list SILTransform) :
  (forall T, Q (EvAdd T)) -> Forall Q (map EvAdd ts).
Proof. intros H. induction ts; simpl; constructor; auto. Qed.

(** The pipeline step always completes, starts exactly one pipeline, with
    the options of lines 483-489, and touches neither the output nor the
    verifier. *)
Lemma run_pipeline_shape (cl : CommandLine) (st : St World) :
  exists (l : list Event) (e : Event) (st' : St World),
    run_pipeline cl st = (Next tt, st')
    /\ st'.(log) = st.(log) ++ l
    /\ filter is_pipeline_start l = [e]
    /\ event_options e = Some (SILOpts_of cl)
    /\ Forall (fun e => is_open_output e = false /\ is_print e = false
                        /\ is_verifier_event e = false) l.
Proof.
  unfold run_pipeline.
  destruct (OptGroup_eqb _ Diagnostics);
    [| destruct (OptGroup_eqb _ Performance)].
  - eexists [_], _, _. split; [reflexivity|]. split; [reflexivity|].
    split; [reflexivity|]. split; [reflexivity|].
    constructor; [auto | constructor].
  - eexists [_], _, _. split; [reflexivity|]. split; [reflexivity|].
    split; [reflexivity|]. split; [reflexivity|].
    constructor; [auto | constructor].
  - rewrite runCommandLineSelectedPasses_spec. simpl.
    eexists _, _, _. split; [reflexivity|]. split; [reflexivity|].
    split; [|split].
    + simpl. rewrite filter_app.
      rewrite (filter_none is_pipeline_start
                 (Forall_adds _ (instantiate (Passes cl))
                    (fun T => eq_refl))).
      reflexivity.
    + reflexivity.
    + repeat (constructor; [auto|]). apply Forall_app. split.
      * apply Forall_adds. auto.
      * constructor; [auto | constructor].
Qed.

(** After the pipeline the first thing is the opening of the output, and
    nothing that follows selects or runs a pass or opens it again. *)
Lemma after_pipeline_shape (cl : CommandLine) (st : St World) :
  exists rest : list Event,
    (snd (after_pipeline cl st)).(log)
    = st.(log) ++ EvOpenOutput cl.(OutputFilename) :: rest
    /\ Forall (fun e => is_pass_event e = false
                        /\ is_open_output e = false) rest.
Proof.
  unfold after_pipeline, open_output, print_module, exit_status.
  unfold_monad.
  destruct (raw_fd_ostream _ _) as [ErrorInfo w].
  destruct (String.eqb ErrorInfo EmptyString); simpl.
  - destruct cl.(VerifyMode).
    + destruct (verifyDiagnostics _) as [v w']. simpl.
      rewrite <- !app_assoc. simpl. eexists. split; [reflexivity|].
      repeat (constructor; [auto|]). constructor.
    + simpl. rewrite <- !app_assoc. simpl. eexists.
      split; [reflexivity|]. repeat (constructor; [auto|]). constructor.
  - rewrite <- !app_assoc. simpl. eexists. split; [reflexivity|].
    repeat (constructor; [auto|]). constructor.
Qed.

(** On every run that reaches the pipeline, exactly one pipeline is
    started, with the options of the command line, and only then is the
    output opened; after the output is opened no pass is selected or run
    and the output is not opened again. *)
Theorem pipeline_then_output (argv0 : string) (cl : CommandLine)
    (st st0 : St World) :
  before_pipeline B argv0 cl st = (Next tt, st0) ->
  exists (l : list Event) (e : Event) (rest : list Event),
    (snd (main_with B argv0 cl st)).(log)
    = st0.(log) ++ l ++ EvOpenOutput cl.(OutputFilename) :: rest
    /\ filter is_pipeline_start l = [e]
    /\ event_options e = Some (SILOpts_of cl)
    /\ Forall (fun e => is_open_output e = false) l
    /\ Forall (fun e => is_pass_event e = false
                        /\ is_open_output e = false) rest.
Proof.
  intros Hb. rewrite main_with_cut.
  erewrite MainFacts.bind_next; [|exact Hb].
  destruct (run_pipeline_shape cl st0) as (l & e & st1 & Hr & El & Fl & Eo
                                           & Al).
  erewrite MainFacts.bind_next; [|exact Hr].
  destruct (after_pipeline_shape cl st1) as (rest & Er & Ar).
  exists l, e, rest. rewrite Er, El, <- app_assoc.
  split; [reflexivity|]. split; [exact Fl|]. split; [exact Eo|].
  split; [|exact Ar]. revert Al. apply Forall_impl. tauto.
Qed.

(** In standard mode the diagnostic verifier is never touched: no run
    attaches it and none asks it for a verdict. *)
Theorem standard_mode_no_verifier (argv0 : string) (cl : CommandLine)
    (st : St World) :
  cl.(VerifyMode) = false ->
  filter is_verifier_event (snd (main_with B argv0 cl st)).(log)
  = filter is_verifier_event st.(log).
Proof.
  intros Hv. apply logs_filter. destruct cl. simpl in Hv. subst.
  unfold_main. simpl. logs_auto; reflexivity.
Qed.

(** A run that stops before the pipeline (unreadable input, failed setup,
    parse error, failed assertion) ends where it stopped, never with
    status 0, and has neither opened the output file nor started a
    pipeline. *)
Theorem early_stop_leaves_output (argv0 : string) (cl : CommandLine)
    (st st' : St World) (t : Termination) :
  before_pipeline B argv0 cl st = (Stop t, st') ->
  main_with B argv0 cl st = (Stop t, st')
  /\ t <> main_returns 0
  /\ filter is_open_output st'.(log) = filter is_open_output st.(log)
  /\ filter is_pipeline_start st'.(log)
     = filter is_pipeline_start st.(log).
Proof.
  intros Hb. split; [|split; [|split]].
  - rewrite main_with_cut. now apply MainFacts.bind_stop.
  - assert (Hs : stops_in (fun t => t <> main_returns 0)
                   (before_pipeline B argv0 cl))
      by (unfold_main; stops_auto; discriminate).
    exact (Hs st t st' Hb).
  - assert (Hl : logs (fun e => is_open_output e = false)
                   (before_pipeline B argv0 cl))
      by (unfold_main; logs_auto; reflexivity).
    pose proof (logs_filter is_open_output st Hl) as H.
    now rewrite Hb in H.
  - assert (Hl : logs (fun e => is_pipeline_start e = false)
                   (before_pipeline B argv0 cl))
      by (unfold_main; logs_auto; reflexivity).
    pose proof (logs_filter is_pipeline_start st Hl) as H.
    now rewrite Hb in H.
Qed.

(** Outside [load_sil] nothing in [main] fails an assertion. *)
Lemma frontend_never_asserts (argv0 : string) (cl : CommandLine) :
  stops_in (fun t => forall msg, t <> assertion_failed msg)
           (frontend argv0 cl).
Proof. unfold_main. stops_auto; discriminate. Qed.

Lemma from_verifier_never_asserts (cl : CommandLine) :
  stops_in (fun t => forall msg, t <> assertion_failed msg)
           (bind (install_verifier cl)
                 (fun _ => bind (run_pipeline cl)
                                (fun _ => after_pipeline cl))).
Proof. unfold after_pipeline. unfold_main. stops_auto; discriminate. Qed.

(** The only assertion [main] can fail is the one of line 470, and only in
    a build with assertions: the input was a serialized module, semantic
    analysis ended without error and left a SIL module behind.  The run
    stops right there, before any pass is selected or run. *)
Theorem assertion_only_on_module_input (argv0 : string) (cl : CommandLine)
    (st st' : St World) (msg : string) :
  main_with B argv0 cl st = (Stop (assertion_failed msg), st') ->
  B.(NDEBUG) = false
  /\ msg = no_SILModule_yet
  /\ CI_hasSILModule st'.(world) = true
  /\ ASTContext_hadError st'.(world) = false
  /\ (exists buffer : MemoryBuffer,
        getFileOrSTDIN cl.(InputFilename) st.(world) = Some buffer
        /\ isSerializedAST buffer = true)
  /\ filter is_pass_event st'.(log) = filter is_pass_event st.(log).
Proof.
  intros H. rewrite main_with_cut in H.
  unfold before_pipeline, load_module in H. rewrite !bind_assoc in H.
  destruct (frontend argv0 cl st) as [[IsModule|t0] st1] eqn:Hf.
  - erewrite MainFacts.bind_next in H; [|exact Hf].
    rewrite bind_assoc in H.
    assert (Hp : stop_on_parse_error st1
                 = if ASTContext_hadError st1.(world)
                   then (Stop (main_returns 1), st1) else (Next tt, st1)).
    { unfold stop_on_parse_error, bind, query, stop, ret.
      now destruct (ASTContext_hadError _). }
    destruct (ASTContext_hadError st1.(world)) eqn:He.
    { erewrite MainFacts.bind_stop in H; [|exact Hp]. discriminate H. }
    erewrite MainFacts.bind_next in H; [|exact Hp].
    destruct (MainFacts.frontend_world _ _ _ Hf)
      as (buffer & w & Hb & Hs & _).
    destruct (MainFacts.frontend_reaches argv0 cl st Hb Hs)
      as (st2 & Hf2 & _).
    rewrite Hf in Hf2. injection Hf2 as HI _.
    pose proof (logs_filter is_pass_event st
                  (MainFacts.frontend_quiet argv0 cl)) as Hq.
    rewrite Hf in Hq. simpl in Hq.
    destruct IsModule.
    + destruct (negb B.(NDEBUG) && CI_hasSILModule st1.(world)) eqn:Ea.
      * assert (Hl : load_sil B true st1
                     = (Stop (assertion_failed no_SILModule_yet), st1)).
        { unfold load_sil, when, bind, query, stop. now rewrite Ea. }
        erewrite MainFacts.bind_stop in H; [|exact Hl].
        injection H as <- <-.
        apply andb_true_iff in Ea. destruct Ea as [En Eh].
        apply negb_true_iff in En. eauto 10.
      * assert (Hl : load_sil B true st1
                     = (Next tt, record EvLoadSerializedSIL st1
                                   (SerializedSILLoader_getAll st1.(world)))).
        { unfold load_sil, when, bind, query, call. now rewrite Ea. }
        erewrite MainFacts.bind_next in H; [|exact Hl].
        pose proof (from_verifier_never_asserts cl) as Hn. unfold stops_in in Hn.
        now destruct (Hn _ _ _ H msg).
    + assert (Hl : load_sil B false st1 = (Next tt, st1)) by reflexivity.
      erewrite MainFacts.bind_next in H; [|exact Hl].
      pose proof (from_verifier_never_asserts cl) as Hn. unfold stops_in in Hn.
        now destruct (Hn _ _ _ H msg).
  - erewrite MainFacts.bind_stop in H; [|exact Hf].
    injection H as -> _.
    pose proof (frontend_never_asserts argv0 cl) as Hn. unfold stops_in in Hn.
    now destruct (Hn _ _ _ Hf msg).
Qed.

End Runs.

End RunFacts.

(** ** Further runs in the concrete world *)

Module ScenariosMore.

Import Fixture FixtureMore.

Local Open Scope string_scope.

Lemma group_flags_apart_witness :
  lookup_flag "performance" OptimizationGroup_flags = Some Performance
  /\ Performance <> Unknown
  /\ lookup_flag "performance" Passes_flags = None
  /\ (forall flag' : string,
        lookup_flag flag' OptimizationGroup_flags = Some Performance ->
        flag' = "performance").
Proof.
  split; [reflexivity|].
  exact (TableFacts.group_flags_apart "performance" eq_refl).
Defined.

Lemma flags_to_factories_injective_witness :
  lookup_flag "dce" Passes_flags = Some DCE
  /\ switch_Pass DCE = switch_Pass DCE
  /\ "dce" = "dce" /\ DCE = DCE.
Proof.
  split; [reflexivity|]. split; [reflexivity|].
  exact (TableFacts.flags_to_factories_injective "dce" "dce"
           (p1 := DCE) (p2 := DCE) eq_refl eq_refl eq_refl).
Defined.


Lemma unreadable_input_exits_witness :
  getFileOrSTDIN (Collaborators := collaborators unreadable)
    cl_explicit.(InputFilename) empty_world = None
  /\ main_with (C := collaborators unreadable) build "sil-opt" cl_explicit
       (start empty_world)
     = (Stop (exit_called (-1)),
        {| world := empty_world;
           log := [EvGetFileOrSTDIN "in.sil";
                   EvStderr (failed_to_open "in.sil")] |}).
Proof.
  split; [reflexivity|].
  exact (RunFacts.unreadable_input_exits (C := collaborators unreadable)
           build "sil-opt" cl_explicit (start empty_world) eq_refl).
Defined.

Lemma setup_failure_returns_1_witness :
  getFileOrSTDIN (Collaborators := collaborators refused)
    cl_explicit.(InputFilename) empty_world = Some "sil_stage canonical"
  /\ fst (main_with (C := collaborators refused) build "sil-opt" cl_explicit
            (start empty_world)) = Stop (main_returns 1).
Proof.
  split; [reflexivity|].
  rewrite (RunFacts.setup_failure_returns_1 (C := collaborators refused)
             build "sil-opt" cl_explicit (start empty_world)
             (buffer := "sil_stage canonical") (w := empty_world)
             eq_refl eq_refl).
  reflexivity.
Defined.

Lemma output_failure_returns_1_witness :
  bind (before_pipeline (C := collaborators unwritable) build "sil-opt"
          cl_explicit)
       (fun _ => run_pipeline (C := collaborators unwritable) cl_explicit)
       (start empty_world)
  = (Next tt, past_pipeline unwritable cl_explicit)
  /\ "Permission denied" <> EmptyString
  /\ fst (main_with (C := collaborators unwritable) build "sil-opt"
            cl_explicit (start empty_world)) = Stop (main_returns 1).
Proof.
  assert (Hp : bind (before_pipeline (C := collaborators unwritable) build
                       "sil-opt" cl_explicit)
                 (fun _ => run_pipeline (C := collaborators unwritable)
                             cl_explicit)
                 (start empty_world)
               = (Next tt, past_pipeline unwritable cl_explicit))
    by (vm_compute; reflexivity).
  assert (He : "Permission denied" <> EmptyString) by discriminate.
  split; [exact Hp|]. split; [exact He|].
  rewrite (RunFacts.output_failure_returns_1 (C := collaborators unwritable)
             build "sil-opt" cl_explicit (start empty_world)
             (w := (past_pipeline unwritable cl_explicit).(world))
             Hp eq_refl He).
  reflexivity.
Defined.

Lemma pipeline_then_output_witness :
  before_pipeline (C := collaborators clean) build "sil-opt" cl_explicit
    (start empty_world) = (Next tt, at_pipeline clean cl_explicit)
  /\ exists (l : list Event) (e : Event) (rest : list Event),
       (snd (main_with (C := collaborators clean) build "sil-opt"
               cl_explicit (start empty_world))).(log)
       = ((at_pipeline clean cl_explicit).(log) ++ l
          ++ EvOpenOutput cl_explicit.(OutputFilename) :: rest)%list
       /\ filter is_pipeline_start l = [e]
       /\ event_options e = Some (SILOpts_of cl_explicit)
       /\ Forall (fun e => is_open_output e = false) l
       /\ Forall (fun e => is_pass_event e = false
                           /\ is_open_output e = false) rest.
Proof.
  assert (Hb : before_pipeline (C := collaborators clean) build "sil-opt"
                 cl_explicit (start empty_world)
               = (Next tt, at_pipeline clean cl_explicit))
    by (vm_compute; reflexivity).
  split; [exact Hb|].
  exact (RunFacts.pipeline_then_output (C := collaborators clean) build
           "sil-opt" cl_explicit (start empty_world) Hb).
Defined.

Lemma standard_mode_no_verifier_witness :
  cl_explicit.(VerifyMode) = false
  /\ filter is_verifier_event
       (snd (main_with (C := collaborators uninitialized) build "sil-opt"
               cl_explicit (start empty_world))).(log)
     = filter is_verifier_event (start empty_world).(log).
Proof.
  split; [reflexivity|].
  exact (RunFacts.standard_mode_no_verifier (C := collaborators uninitialized)
           build "sil-opt" cl_explicit (start empty_world) eq_refl).
Defined.

Lemma early_stop_leaves_output_witness :
  before_pipeline (C := collaborators parse_error) build "sil-opt"
    cl_explicit (start empty_world) = (Stop (main_returns 1), after_sema)
  /\ main_with (C := collaborators parse_error) build "sil-opt" cl_explicit
       (start empty_world) = (Stop (main_returns 1), after_sema)
  /\ main_returns 1 <> main_returns 0
  /\ filter is_open_output after_sema.(log)
     = filter is_open_output (start empty_world).(log)
  /\ filter is_pipeline_start after_sema.(log)
     = filter is_pipeline_start (start empty_world).(log).
Proof.
  assert (Hb : before_pipeline (C := collaborators parse_error) build
                 "sil-opt" cl_explicit (start empty_world)
               = (Stop (main_returns 1), after_sema))
    by (vm_compute; reflexivity).
  split; [exact Hb|].
  exact (RunFacts.early_stop_leaves_output (C := collaborators parse_error)
           build "sil-opt" cl_explicit (start empty_world) Hb).
Defined.

(** A serialized module for which semantic analysis has left a SIL module
    behind, in a build with assertions. *)
Lemma assertion_only_on_module_input_witness :
  main_with (C := collaborators_with_module serialized) build "sil-opt"
    cl_explicit (start empty_world)
  = (Stop (assertion_failed no_SILModule_yet),
     snd (main_with (C := collaborators_with_module serialized) build
            "sil-opt" cl_explicit (start empty_world)))
  /\ build.(NDEBUG) = false
  /\ exists buffer : MemoryBuffer,
       getFileOrSTDIN (Collaborators := collaborators_with_module serialized)
         cl_explicit.(InputFilename) empty_world = Some buffer
       /\ isSerializedAST
            (Collaborators := collaborators_with_module serialized) buffer
          = true.
Proof.
  assert (H : main_with (C := collaborators_with_module serialized) build
                "sil-opt" cl_explicit (start empty_world)
              = (Stop (assertion_failed no_SILModule_yet),
                 snd (main_with (C := collaborators_with_module serialized)
                        build "sil-opt" cl_explicit (start empty_world))))
    by (vm_compute; reflexivity).
  split; [exact H|].
  destruct (RunFacts.assertion_only_on_module_input
              (C := collaborators_with_module serialized) build "sil-opt"
              cl_explicit (start empty_world) H)
    as (Hn & _ & _ & _ & Hb & _).
  split; [exact Hn | exact Hb].
Defined.

(** In a build without assertions the same run goes on to load the
    serialized SIL and ends with status 0. *)
Example release_build_goes_on :
  fst (main_with (C := collaborators_with_module serialized) release
         "sil-opt" cl_explicit (start empty_world))
  = Stop (main_returns 0)
  /\ In EvLoadSerializedSIL
        (snd (main_with (C := collaborators_with_module serialized) release
                "sil-opt" cl_explicit (start empty_world))).(log).
Proof. split; vm_compute; tauto. Qed.

End ScenariosMore.

(** ** What is selected, and under which name *)

Module SelectionFacts.

Lemma PassKind_eq_dec (a b : PassKind) : {a = b} + {a <> b}.
Proof. decide equality. Defined.

Lemma SILTransform_eq_dec (a b : SILTransform) : {a = b} + {a <> b}.
Proof. decide equality. Defined.

Lemma instantiate_count (Passes : list PassKind) (Pass : PassKind)
    (create : SILTransform) :
  switch_Pass Pass = Some create ->
  count_occ SILTransform_eq_dec (instantiate Passes) create
  = count_occ PassKind_eq_dec Passes Pass.
Proof.
  intros Hc. induction Passes as [|p rest IH]; [reflexivity|].
  destruct (instantiate_cons p rest) as (c & Hp & ->). simpl.
  destruct (SILTransform_eq_dec c create) as [E|E];
    destruct (PassKind_eq_dec p Pass) as [F|F].
  - now rewrite IH.
  - destruct F. apply switch_Pass_injective. congruence.
  - destruct E. congruence.
  - exact IH.
Qed.

Section Selection.

Context {World : Type} {C : Collaborators World}.

(** The explicit list is taken as it is: the pass manager that runs holds
    the object of a pass identifier exactly as many times as the
    identifier is listed.  A pass named twice runs twice, and a pass not
    named is not there. *)
Theorem explicit_list_keeps_multiplicity (Passes : list PassKind)
    (Options : SILOptions) (st : St World) (Pass : PassKind)
    (create : SILTransform) :
  switch_Pass Pass = Some create ->
  exists (PM : SILPassManager) (st' : St World),
    runCommandLineSelectedPasses Passes Options st = (Next tt, st')
    /\ st'.(world) = SILPassManager_run PM st.(world)
    /\ count_occ SILTransform_eq_dec PM.(PM_Transformations) create
       = count_occ PassKind_eq_dec Passes Pass
    /\ (In create PM.(PM_Transformations) <-> In Pass Passes).
Proof.
  intros Hc. eexists. eexists.
  split; [apply runCommandLineSelectedPasses_spec|]. simpl.
  split; [reflexivity|]. split; [now apply instantiate_count|].
  rewrite (count_occ_In SILTransform_eq_dec),
          (count_occ_In PassKind_eq_dec).
  simpl. now rewrite (instantiate_count Passes Pass Hc).
Qed.

(** The module name and input kind of the invocation (lines 438-453): a
    name given with -module-name is used for either kind of input; without
    one a serialized module is named by the stem of the input file name
    and SIL text is named "main", so SIL text is never left without a
    name; and the input kind follows the kind of the buffer. *)
Theorem module_name_selection (exe : string) (cl : CommandLine)
    (buffer : MemoryBuffer) :
  snd (invocation_for exe cl buffer) = isSerializedAST buffer
  /\ (fst (invocation_for exe cl buffer)).(InputKind)
     = (if isSerializedAST buffer then Library else SIL)
  /\ (cl.(ModuleName) <> EmptyString ->
      (fst (invocation_for exe cl buffer)).(Inv_ModuleName)
      = cl.(ModuleName))
  /\ (cl.(ModuleName) = EmptyString ->
      (fst (invocation_for exe cl buffer)).(Inv_ModuleName)
      = if isSerializedAST buffer
        then path_stem cl.(InputFilename) else "main"%string)
  /\ (isSerializedAST buffer = false ->
      (fst (invocation_for exe cl buffer)).(Inv_ModuleName) <> EmptyString).
Proof.
  unfold invocation_for. simpl.
  split; [reflexivity|]. split; [reflexivity|].
  destruct cl.(ModuleName) as [|c name] eqn:En; simpl.
  - split; [congruence|]. split; [reflexivity|].
    intros ->. discriminate.
  - split; [now destruct (isSerializedAST buffer)|].
    split; [discriminate|]. intros ->. discriminate.
Qed.

End Selection.

End SelectionFacts.

Module SelectionScenarios.

Import Fixture SelectionFacts.

(** [-sil-combine -simplify-cfg -sil-combine]: the combiner is there
    twice. *)
Lemma explicit_list_keeps_multiplicity_witness :
  switch_Pass SILCombine = Some createSILCombine
  /\ count_occ PassKind_eq_dec [SILCombine; SimplifyCFG; SILCombine]
       SILCombine = 2%nat
  /\ exists (PM : SILPassManager) (st' : St TestWorld),
       runCommandLineSelectedPasses (C := collaborators clean)
         [SILCombine; SimplifyCFG; SILCombine] (SILOpts_of cl_explicit)
         (start empty_world) = (Next tt, st')
       /\ st'.(world)
          = SILPassManager_run (Collaborators := collaborators clean) PM
              (start empty_world).(world)
       /\ count_occ SILTransform_eq_dec PM.(PM_Transformations)
            createSILCombine
          = count_occ PassKind_eq_dec [SILCombine; SimplifyCFG; SILCombine]
              SILCombine
       /\ (In createSILCombine PM.(PM_Transformations)
           <-> In SILCombine [SILCombine; SimplifyCFG; SILCombine]).
Proof.
  split; [reflexivity|]. split; [reflexivity|].
  exact (explicit_list_keeps_multiplicity (C := collaborators clean)
           [SILCombine; SimplifyCFG; SILCombine] (SILOpts_of cl_explicit)
           (start empty_world) SILCombine eq_refl).
Defined.

End SelectionScenarios.

(** ** Whole runs of [main]: group, exit status, verifier, verification
       after each pass *)

Module RunClaims.

Section Runs.

Context {World : Type} {C : Collaborators World}.
Variable B : Build.

Ltac unfold_parts :=
  unfold before_pipeline, load_module, frontend, prepare_invocation,
    run_sema, stop_on_parse_error, load_sil, install_verifier.

(** What [main] does after the pipeline, case by case. *)
Lemma after_pipeline_cases (cl : CommandLine) (st1 : St World) :
  after_pipeline cl st1
  = (let (ErrorInfo, w) := raw_fd_ostream cl.(OutputFilename) st1.(world) in
     let opened := record (EvOpenOutput cl.(OutputFilename)) st1 w in
     if String.eqb ErrorInfo EmptyString
     then
       let st2 := record (EvPrint cl.(EmitVerboseSIL)
                                  cl.(EnableSILSortOutput)) opened
                    (SILModule_print cl.(EmitVerboseSIL)
                       cl.(EnableSILSortOutput) w) in
       if cl.(VerifyMode)
       then (Stop (main_returns
                     (Z.b2z (fst (verifyDiagnostics st2.(world))))),
             record EvVerifyDiagnostics st2
               (snd (verifyDiagnostics st2.(world))))
       else (Stop (main_returns (Z.b2z (ASTContext_hadError st2.(world)))),
             st2)
     else (Stop (main_returns 1),
           record (EvStderr (while_opening cl.(OutputFilename) ErrorInfo))
             opened w)).
Proof.
  unfold after_pipeline, open_output, print_module, exit_status.
  unfold when, bind, call, callv, query, emit, stop, ret.
  destruct (raw_fd_ostream _ _) as [ErrorInfo w].
  destruct (String.eqb ErrorInfo EmptyString); simpl; [|reflexivity].
  destruct cl.(VerifyMode); [|reflexivity].
  now destruct (verifyDiagnostics _).
Qed.

(** After the pipeline no pass is selected or run and no pipeline is
    started. *)
Lemma after_pipeline_no_pass (cl : CommandLine) :
  logs (fun e => is_pass_event e = false /\ is_pipeline_start e = false)
       (after_pipeline cl).
Proof.
  unfold after_pipeline, open_output, print_module, exit_status.
  logs_auto; auto.
Qed.

Lemma before_pipeline_no_start (argv0 : string) (cl : CommandLine) :
  logs (fun e => is_pass_event e = false /\ is_pipeline_start e = false)
       (before_pipeline B argv0 cl).
Proof. unfold_parts. logs_auto; auto. Qed.

(** A run that reaches the pipeline is the pipeline step followed by what
    comes after it. *)
Lemma main_with_from_pipeline (argv0 : string) (cl : CommandLine)
    (st st0 st1 : St World) :
  before_pipeline B argv0 cl st = (Next tt, st0) ->
  run_pipeline cl st0 = (Next tt, st1) ->
  main_with B argv0 cl st = after_pipeline cl st1.
Proof.
  intros Hb Hr. rewrite RunFacts.main_with_cut.
  erewrite MainFacts.bind_next; [|exact Hb].
  erewrite MainFacts.bind_next; [|exact Hr]. reflexivity.
Qed.

Lemma main_with_stopped_early (argv0 : string) (cl : CommandLine)
    (st st' : St World) (t : Termination) :
  before_pipeline B argv0 cl st = (Stop t, st') ->
  main_with B argv0 cl st = (Stop t, st').
Proof.
  intros Hb. rewrite RunFacts.main_with_cut. now apply MainFacts.bind_stop.
Qed.

(** The filter of a state's log under a part of the driver that adds no
    event of the kind. *)
Lemma filter_kept {A : Type} (p : Event -> bool) (m : M World A)
    (st st' : St World) (r : Flow A) :
  logs (fun e => p e = false) m ->
  m st = (r, st') ->
  filter p st'.(log) = filter p st.(log).
Proof.
  intros Hl Hm. pose proof (logs_filter p st Hl) as H.
  now rewrite Hm in H.
Qed.

(** C1: with a preset group (Diagnostics or Performance) and an explicit
    list both given, a run of [main] that reaches the pipeline executes the
    group's preset and nothing else: the pipeline step is the one preset
    call, [main] goes on from the state that call leaves, and it is the
    only pass event of the whole run.  The explicit list is ignored: the
    run is the same for any other list, and nothing is registered with,
    added to or run on a pass manager of the driver. *)
Theorem group_takes_precedence_C1 (argv0 : string) (cl : CommandLine)
    (st : St World) :
  cl.(OptimizationGroup) <> Unknown ->
  (forall Passes' : list PassKind,
     main_with B argv0 (with_Passes Passes' cl) st
     = main_with B argv0 cl st)
  /\ filter is_explicit_event (snd (main_with B argv0 cl st)).(log)
     = filter is_explicit_event st.(log)
  /\ match before_pipeline B argv0 cl st with
     | (Next _, st0) =>
         let preset :=
           match cl.(OptimizationGroup) with
           | Diagnostics => EvRunSILDiagnosticPasses (SILOpts_of cl)
           | _ => EvRunSILOptimizationPasses (SILOpts_of cl)
           end in
         let st1 :=
           record preset st0
             (match cl.(OptimizationGroup) with
              | Diagnostics =>
                  runSILDiagnosticPasses (SILOpts_of cl) st0.(world)
              | _ => runSILOptimizationPasses (SILOpts_of cl) st0.(world)
              end) in
         run_pipeline cl st0 = (Next tt, st1)
         /\ main_with B argv0 cl st = after_pipeline cl st1
         /\ filter is_pass_event (snd (main_with B argv0 cl st)).(log)
            = filter is_pass_event st.(log) ++ [preset]
     | (Stop t, st') =>
         main_with B argv0 cl st = (Stop t, st')
         /\ filter is_pass_event st'.(log) = filter is_pass_event st.(log)
     end.
Proof.
  intros Hg.
  destruct (MainFacts.preset_group_facts B argv0 cl st Hg) as (_ & Hi & He).
  split; [exact Hi|]. split; [exact He|].
  assert (Hq : logs (fun e => is_pass_event e = false)
                 (before_pipeline B argv0 cl)).
  { eapply logs_weaken; [|apply before_pipeline_no_start]. simpl. tauto. }
  destruct (before_pipeline B argv0 cl st) as [[[]|t] st0] eqn:Hb.
  - cbv zeta.
    assert (Hr : run_pipeline cl st0
                 = (Next tt,
                    record
                      match cl.(OptimizationGroup) with
                      | Diagnostics =>
                          EvRunSILDiagnosticPasses (SILOpts_of cl)
                      | _ => EvRunSILOptimizationPasses (SILOpts_of cl)
                      end st0
                      match cl.(OptimizationGroup) with
                      | Diagnostics =>
                          runSILDiagnosticPasses (SILOpts_of cl) st0.(world)
                      | _ =>
                          runSILOptimizationPasses (SILOpts_of cl)
                            st0.(world)
                      end)).
    { unfold run_pipeline. destruct cl.(OptimizationGroup);
        [contradiction | reflexivity | reflexivity]. }
    split; [exact Hr|].
    pose proof (main_with_from_pipeline argv0 cl st Hb Hr) as Hm.
    split; [exact Hm|].
    rewrite Hm.
    assert (Ha : logs (fun e => is_pass_event e = false) (after_pipeline cl)).
    { eapply logs_weaken; [|apply after_pipeline_no_pass]. simpl. tauto. }
    rewrite (logs_filter is_pass_event _ Ha). simpl.
    rewrite filter_app, (filter_kept is_pass_event st Hq Hb).
    now destruct cl.(OptimizationGroup).
  - split; [now apply main_with_stopped_early|].
    exact (filter_kept is_pass_event st Hq Hb).
Qed.

(** C3, as the driver has it: on a run that has come to the end of the
    pipeline, [main] opens the output; if that fails it returns 1 whatever
    the error flag or the verdict would be; otherwise it prints the module
    and returns the error flag of the AST context in standard mode, and in
    verification mode the result of [verifyDiagnostics] alone, which
    replaces the flag read before. *)
Theorem exit_status_C3 (argv0 : string) (cl : CommandLine)
    (st st1 : St World) :
  bind (before_pipeline B argv0 cl) (fun _ => run_pipeline cl) st
  = (Next tt, st1) ->
  main_with B argv0 cl st
  = (let (ErrorInfo, w) := raw_fd_ostream cl.(OutputFilename) st1.(world) in
     let opened := record (EvOpenOutput cl.(OutputFilename)) st1 w in
     if String.eqb ErrorInfo EmptyString
     then
       let st2 := record (EvPrint cl.(EmitVerboseSIL)
                                  cl.(EnableSILSortOutput)) opened
                    (SILModule_print cl.(EmitVerboseSIL)
                       cl.(EnableSILSortOutput) w) in
       if cl.(VerifyMode)
       then (Stop (main_returns
                     (Z.b2z (fst (verifyDiagnostics st2.(world))))),
             record EvVerifyDiagnostics st2
               (snd (verifyDiagnostics st2.(world))))
       else (Stop (main_returns (Z.b2z (ASTContext_hadError st2.(world)))),
             st2)
     else (Stop (main_returns 1),
           record (EvStderr (while_opening cl.(OutputFilename) ErrorInfo))
             opened w)).
Proof.
  intros Hp. unfold bind in Hp.
  destruct (before_pipeline B argv0 cl st) as [[[]|t0] st0] eqn:Hb;
    [|discriminate Hp].
  rewrite (main_with_from_pipeline argv0 cl st Hb Hp).
  apply after_pipeline_cases.
Qed.

(** C7, as the driver has it: in verification mode a run of [main] that
    gets as far as the loaded module attaches the verifier, then runs the
    pipeline in the state the attaching left, then opens the output: the
    log of the run is the log before the attaching, which holds no pass
    event of this run, then the attaching, then the events of the one
    pipeline, then the opening of the output.  If the output opens, the
    module is printed, [verifyDiagnostics] is called and its result is the
    status; if not, [main] returns 1 and no verdict is asked for.  A run
    that stops before the module is loaded never attaches the verifier. *)
Theorem verifier_attached_and_finalized_C7 (argv0 : string)
    (cl : CommandLine) (st : St World) :
  cl.(VerifyMode) = true ->
  match load_module B argv0 cl st with
  | (Next _, st0) =>
      filter is_pass_event st0.(log) = filter is_pass_event st.(log)
      /\ filter is_verifier_event st0.(log)
         = filter is_verifier_event st.(log)
      /\ exists (p : list Event) (e : Event) (st1 : St World),
           run_pipeline cl
             (record EvEnableDiagnosticVerifier st0
                (enableDiagnosticVerifier st0.(world)))
           = (Next tt, st1)
           /\ st1.(log) = st0.(log) ++ [EvEnableDiagnosticVerifier] ++ p
           /\ filter is_pipeline_start p = [e]
           /\ Forall (fun e => is_verifier_event e = false) p
           /\ main_with B argv0 cl st
              = (let (ErrorInfo, w) :=
                   raw_fd_ostream cl.(OutputFilename) st1.(world) in
                 if String.eqb ErrorInfo EmptyString
                 then
                   let w' := SILModule_print cl.(EmitVerboseSIL)
                               cl.(EnableSILSortOutput) w in
                   (Stop (main_returns
                            (Z.b2z (fst (verifyDiagnostics w')))),
                    {| world := snd (verifyDiagnostics w');
                       log := st1.(log)
                              ++ [EvOpenOutput cl.(OutputFilename);
                                  EvPrint cl.(EmitVerboseSIL)
                                          cl.(EnableSILSortOutput);
                                  EvVerifyDiagnostics] |})
                 else
                   (Stop (main_returns 1),
                    {| world := w;
                       log := st1.(log)
                              ++ [EvOpenOutput cl.(OutputFilename);
                                  EvStderr
                                    (while_opening cl.(OutputFilename)
                                       ErrorInfo)] |}))
  | (Stop t, st') =>
      main_with B argv0 cl st = (Stop t, st')
      /\ filter is_pass_event st'.(log) = filter is_pass_event st.(log)
      /\ filter is_verifier_event st'.(log)
         = filter is_verifier_event st.(log)
  end.
Proof.
  intros Hv.
  assert (Hq : logs (fun e => is_pass_event e = false)
                 (load_module B argv0 cl))
    by apply MainFacts.load_module_quiet.
  assert (Hw : logs (fun e => is_verifier_event e = false)
                 (load_module B argv0 cl))
    by (unfold_parts; logs_auto; reflexivity).
  destruct (load_module B argv0 cl st) as [[[]|t] st0] eqn:Hl.
  - split; [exact (filter_kept is_pass_event st Hq Hl)|].
    split; [exact (filter_kept is_verifier_event st Hw Hl)|].
    assert (Hb : before_pipeline B argv0 cl st
                 = (Next tt, record EvEnableDiagnosticVerifier st0
                               (enableDiagnosticVerifier st0.(world)))).
    { unfold before_pipeline. erewrite MainFacts.bind_next; [|exact Hl].
      unfold install_verifier. now rewrite Hv. }
    destruct (RunFacts.run_pipeline_shape cl
                (record EvEnableDiagnosticVerifier st0
                   (enableDiagnosticVerifier st0.(world))))
      as (p & e & st1 & Hr & El & Fp & _ & Ap).
    exists p, e, st1. split; [exact Hr|].
    split; [rewrite El; simpl; now rewrite <- app_assoc|].
    split; [exact Fp|].
    split; [revert Ap; apply Forall_impl; tauto|].
    rewrite (main_with_from_pipeline argv0 cl st Hb Hr).
    rewrite after_pipeline_cases, Hv.
    destruct (raw_fd_ostream _ _) as [ErrorInfo w].
    destruct (String.eqb ErrorInfo EmptyString); unfold record; simpl;
      now rewrite <- !app_assoc.
  - split; [|split].
    + apply main_with_stopped_early. unfold before_pipeline.
      now apply MainFacts.bind_stop.
    + exact (filter_kept is_pass_event st Hq Hl).
    + exact (filter_kept is_verifier_event st Hw Hl).
Qed.

(** The pipelines a run starts: none when it stops before the pipeline,
    exactly one otherwise, started with the options of lines 483-489. *)
Lemma pipeline_starts_of_run (argv0 : string) (cl : CommandLine)
    (st : St World) :
  exists starts : list Event,
    filter is_pipeline_start (snd (main_with B argv0 cl st)).(log)
    = filter is_pipeline_start st.(log) ++ starts
    /\ Forall (fun e => event_options e = Some (SILOpts_of cl)) starts
    /\ List.length starts
       = match fst (before_pipeline B argv0 cl st) with
         | Next _ => 1%nat
         | Stop _ => 0%nat
         end.
Proof.
  assert (Hq : logs (fun e => is_pipeline_start e = false)
                 (before_pipeline B argv0 cl)).
  { eapply logs_weaken; [|apply before_pipeline_no_start]. simpl. tauto. }
  destruct (before_pipeline B argv0 cl st) as [[[]|t] st0] eqn:Hb; simpl.
  - destruct (RunFacts.run_pipeline_shape cl st0)
      as (l & e & st1 & Hr & El & Fl & Eo & _).
    exists [e]. rewrite (main_with_from_pipeline argv0 cl st Hb Hr).
    assert (Ha : logs (fun e => is_pipeline_start e = false)
                   (after_pipeline cl)).
    { eapply logs_weaken; [|apply after_pipeline_no_pass]. simpl. tauto. }
    rewrite (logs_filter is_pipeline_start _ Ha), El, filter_app, Fl.
    rewrite (filter_kept is_pipeline_start st Hq Hb).
    split; [reflexivity|]. split; [|reflexivity].
    constructor; [exact Eo | constructor].
  - exists []. rewrite (main_with_stopped_early argv0 cl st Hb). simpl.
    rewrite (filter_kept is_pipeline_start st Hq Hb), app_nil_r.
    split; [reflexivity|]. split; [constructor | reflexivity].
Qed.

(** C9: verification after every pass is on by default.  For a command
    line with no occurrence of -enable-sil-verify-all, the run of [main]
    is the run on the parsed options, whose [VerifyAll] is set; every
    pipeline the run starts (the preset call or [PM.run] on the driver's
    pass manager) is handed these options, so has the flag set; and a run
    that reaches the pipeline starts exactly one. *)
Theorem verify_all_default_C9 (argv0 : string) (args : list Arg)
    (cl : CommandLine) (st : St World) :
  existsb sets_verify_all args = false ->
  ParseCommandLineOptions args (cl_init B.(SWIFT_MODULE_CACHE_PATH))
  = Some cl ->
  (SILOpts_of cl).(VerifyAll) = true
  /\ main B argv0 args st = main_with B argv0 cl st
  /\ exists starts : list Event,
       filter is_pipeline_start (snd (main B argv0 args st)).(log)
       = filter is_pipeline_start st.(log) ++ starts
       /\ Forall (fun e => exists o : SILOptions,
                             event_options e = Some o
                             /\ o.(VerifyAll) = true) starts
       /\ List.length starts
          = match fst (before_pipeline B argv0 cl st) with
            | Next _ => 1%nat
            | Stop _ => 0%nat
            end.
Proof.
  intros Hn Hp.
  assert (Hv : (SILOpts_of cl).(VerifyAll) = true).
  { simpl.
    now rewrite (MainFacts.ParseCommandLineOptions_verify_all _ _ Hn Hp). }
  assert (Hm : main B argv0 args st = main_with B argv0 cl st).
  { unfold main. now rewrite Hp. }
  split; [exact Hv|]. split; [exact Hm|].
  destruct (pipeline_starts_of_run argv0 cl st) as (starts & Ef & Fs & Ls).
  exists starts. rewrite Hm. split; [exact Ef|]. split; [|exact Ls].
  revert Fs. apply Forall_impl. intros e He. eauto.
Qed.

End Runs.

End RunClaims.

(** ** Whole runs in the concrete world *)

Module RunClaimScenarios.

Import Fixture FixtureMore.

Local Open Scope string_scope.

(** [-mem2reg -diagnostics -dce]: the run executes the diagnostics preset
    and that is its only pass event. *)
Lemma group_takes_precedence_C1_witness :
  cl_both.(OptimizationGroup) <> Unknown
  /\ cl_both.(Passes) = [SILMem2Reg; DCE]
  /\ main_with (C := collaborators clean) build "sil-opt" cl_both
       (start empty_world)
     = after_pipeline (C := collaborators clean) cl_both
         (record (EvRunSILDiagnosticPasses (SILOpts_of cl_both))
            (at_pipeline clean cl_both)
            (runSILDiagnosticPasses (Collaborators := collaborators clean)
               (SILOpts_of cl_both) (at_pipeline clean cl_both).(world)))
  /\ filter is_pass_event
       (snd (main_with (C := collaborators clean) build "sil-opt" cl_both
               (start empty_world))).(log)
     = [EvRunSILDiagnosticPasses (SILOpts_of cl_both)].
Proof.
  assert (Hg : cl_both.(OptimizationGroup) <> Unknown)
    by (vm_compute; discriminate).
  split; [exact Hg|]. split; [reflexivity|].
  destruct (RunClaims.group_takes_precedence_C1 (C := collaborators clean)
              build "sil-opt" cl_both (start empty_world) Hg)
    as (_ & _ & H).
  assert (Hb : before_pipeline (C := collaborators clean) build "sil-opt"
                 cl_both (start empty_world)
               = (Next tt, at_pipeline clean cl_both))
    by (vm_compute; reflexivity).
  rewrite Hb in H. cbv zeta in H. destruct H as (_ & Hm & Hf).
  split; [exact Hm | exact Hf].
Defined.

(** A verifying run whose output opens: the status is the verdict. *)
Lemma exit_status_C3_witness :
  bind (before_pipeline (C := collaborators uninitialized) build "sil-opt"
          cl_verify)
       (fun _ => run_pipeline (C := collaborators uninitialized) cl_verify)
       (start empty_world)
  = (Next tt, past_pipeline uninitialized cl_verify)
  /\ fst (main_with (C := collaborators uninitialized) build "sil-opt"
            cl_verify (start empty_world)) = Stop (main_returns 1).
Proof.
  assert (Hp : bind (before_pipeline (C := collaborators uninitialized)
                       build "sil-opt" cl_verify)
                 (fun _ => run_pipeline (C := collaborators uninitialized)
                             cl_verify)
                 (start empty_world)
               = (Next tt, past_pipeline uninitialized cl_verify))
    by (vm_compute; reflexivity).
  split; [exact Hp|].
  rewrite (RunClaims.exit_status_C3 (C := collaborators uninitialized) build
             "sil-opt" cl_verify (start empty_world) Hp).
  reflexivity.
Defined.

(** C3 fails when the output file cannot be opened.  In standard mode the
    pipeline has run to its end, no diagnostic was emitted and the error
    flag is clear, yet the status is 1; in verification mode the verifier
    would report no error on the diagnostics captured, yet the status is
    1. *)
Lemma status_1_without_error_C3 :
  cl_explicit_out.(VerifyMode) = false
  /\ (exists PM : SILPassManager,
        In (EvRun PM)
           (snd (run (main_with (C := collaborators unwritable) build
                        "sil-opt" cl_explicit_out) empty_world)).(log))
  /\ (snd (run (main_with (C := collaborators unwritable) build "sil-opt"
                  cl_explicit_out) empty_world)).(world).(emitted) = []
  /\ ASTContext_hadError (Collaborators := collaborators unwritable)
       (snd (run (main_with (C := collaborators unwritable) build "sil-opt"
                    cl_explicit_out) empty_world)).(world) = false
  /\ fst (run (main_with (C := collaborators unwritable) build "sil-opt"
                 cl_explicit_out) empty_world) = main_returns 1
  /\ cl_verify_out.(VerifyMode) = true
  /\ fst (verifyDiagnostics (Collaborators := collaborators unwritable)
            (snd (run (main_with (C := collaborators unwritable) build
                         "sil-opt" cl_verify_out) empty_world)).(world))
     = false
  /\ fst (run (main_with (C := collaborators unwritable) build "sil-opt"
                 cl_verify_out) empty_world) = main_returns 1.
Proof.
  split; [reflexivity|]. split.
  - eexists. vm_compute. do 9 right. left. reflexivity.
  - repeat split; vm_compute; reflexivity.
Qed.

(** A verifying run: the verifier is attached, then the one pipeline
    runs. *)
Lemma verifier_attached_and_finalized_C7_witness :
  cl_verify.(VerifyMode) = true
  /\ load_module (C := collaborators uninitialized) build "sil-opt"
       cl_verify (start empty_world)
     = (Next tt, at_module uninitialized cl_verify)
  /\ exists (p : list Event) (e : Event) (st1 : St TestWorld),
       run_pipeline (C := collaborators uninitialized) cl_verify
         (record EvEnableDiagnosticVerifier
            (at_module uninitialized cl_verify)
            (enableDiagnosticVerifier
               (Collaborators := collaborators uninitialized)
               (at_module uninitialized cl_verify).(world)))
       = (Next tt, st1)
       /\ st1.(log)
          = ((at_module uninitialized cl_verify).(log)
             ++ [EvEnableDiagnosticVerifier] ++ p)%list
       /\ filter is_pipeline_start p = [e].
Proof.
  split; [reflexivity|].
  assert (Hl : load_module (C := collaborators uninitialized) build
                 "sil-opt" cl_verify (start empty_world)
               = (Next tt, at_module uninitialized cl_verify))
    by (vm_compute; reflexivity).
  split; [exact Hl|].
  pose proof (RunClaims.verifier_attached_and_finalized_C7
                (C := collaborators uninitialized) build "sil-opt" cl_verify
                (start empty_world) eq_refl) as H.
  rewrite Hl in H.
  destruct H as (_ & _ & p & e & st1 & Hr & El & Fp & _).
  exists p, e, st1. split; [exact Hr|]. split; [exact El | exact Fp].
Defined.

(** C7 fails when the output file cannot be opened: in verification mode
    the verifier was attached and the pipeline ran, and [main] returns 1
    with the verifier still attached and no verdict asked for. *)
Lemma verifier_left_attached_C7 :
  cl_verify_out.(VerifyMode) = true
  /\ cl_verify_out.(OutputFilename) = "/readonly/out.sil"
  /\ In EvEnableDiagnosticVerifier
        (snd (run (main_with (C := collaborators unwritable) build "sil-opt"
                     cl_verify_out) empty_world)).(log)
  /\ (exists PM : SILPassManager,
        In (EvRun PM)
           (snd (run (main_with (C := collaborators unwritable) build
                        "sil-opt" cl_verify_out) empty_world)).(log))
  /\ In (EvOpenOutput "/readonly/out.sil")
        (snd (run (main_with (C := collaborators unwritable) build "sil-opt"
                     cl_verify_out) empty_world)).(log)
  /\ fst (run (main_with (C := collaborators unwritable) build "sil-opt"
                 cl_verify_out) empty_world) = main_returns 1
  /\ ~ In EvVerifyDiagnostics
          (snd (run (main_with (C := collaborators unwritable) build
                       "sil-opt" cl_verify_out) empty_world)).(log)
  /\ (snd (run (main_with (C := collaborators unwritable) build "sil-opt"
                  cl_verify_out) empty_world)).(world).(verifier_attached)
     = true.
Proof.
  split; [reflexivity|]. split; [reflexivity|].
  split; [vm_compute; tauto|]. split.
  - eexists. vm_compute. do 9 right. left. reflexivity.
  - split; [vm_compute; tauto|]. split; [vm_compute; reflexivity|].
    split; [|vm_compute; reflexivity].
    intros H. vm_compute in H.
    repeat (destruct H as [H|H]; [discriminate H|]). exact H.
Qed.

(** A command line that names a group and a threshold, and not
    -enable-sil-verify-all: the run starts one pipeline, with the flag
    set. *)
Lemma verify_all_default_C9_witness :
  existsb sets_verify_all
    [Positional "in.sil"; Opt_enum "performance";
     Opt_sil_inline_threshold 200] = false
  /\ ParseCommandLineOptions
       [Positional "in.sil"; Opt_enum "performance";
        Opt_sil_inline_threshold 200]
       (cl_init build.(SWIFT_MODULE_CACHE_PATH)) = Some cl_default
  /\ (SILOpts_of cl_default).(VerifyAll) = true
  /\ main (C := collaborators clean) build "sil-opt"
       [Positional "in.sil"; Opt_enum "performance";
        Opt_sil_inline_threshold 200] (start empty_world)
     = main_with (C := collaborators clean) build "sil-opt" cl_default
         (start empty_world)
  /\ exists starts : list Event,
       filter is_pipeline_start
         (snd (main (C := collaborators clean) build "sil-opt"
                 [Positional "in.sil"; Opt_enum "performance";
                  Opt_sil_inline_threshold 200] (start empty_world))).(log)
       = (filter is_pipeline_start (start empty_world).(log) ++ starts)%list
       /\ Forall (fun e => exists o : SILOptions,
                             event_options e = Some o
                             /\ o.(VerifyAll) = true) starts
       /\ List.length starts = 1%nat.
Proof.
  assert (Hp : ParseCommandLineOptions
                 [Positional "in.sil"; Opt_enum "performance";
                  Opt_sil_inline_threshold 200]
                 (cl_init build.(SWIFT_MODULE_CACHE_PATH)) = Some cl_default)
    by (vm_compute; reflexivity).
  split; [reflexivity|]. split; [exact Hp|].
  exact (RunClaims.verify_all_default_C9 (C := collaborators clean) build
           "sil-opt"
           [Positional "in.sil"; Opt_enum "performance";
            Opt_sil_inline_threshold 200] (start empty_world) eq_refl Hp).
Defined.

End RunClaimScenarios.
